(** * TileLayer: the tile-rendering core of the tyria map viewer

    A shallow embedding of [packages/tyria/src/layers/TileLayer.ts] and the
    properties of its viewport-to-tile mapping, its fallback resolver, its
    buffer resize policy and its render and preload passes.

    Numbers.  The source computes with JavaScript numbers.  The embedding
    uses the exact value of every operation:
    - the view state (zoom, centre, viewport size) and everything derived
      from it by [2 ** f] live in [R];
    - tile indices, the integer zoom level and canvas dimensions live in [Z]
      (they are results of [Math.floor]/[Math.ceil] or products of those);
    - the coordinates walked by the fallback resolver ([x / 2], [x % 1],
      [scale * 0.5]) are dyadic rationals and live in [Q];
    - request priorities divide by a grid extent that can be zero, so they
      live in [num], rationals extended with the two infinities and NaN.
    Rounding, overflow and the sign of zero are not modelled.  In
    particular [2 ** f] is the exact power: for a zoom within about [1e-16]
    of an integer the source rounds it to 1, so a negative zoom that close
    to an integer passes the size check of [getTiles] in the source and
    fails it in the embedding.

    Effects.  The frame buffer is represented by its two dimensions, and
    what is drawn by the calls made on the 2D contexts, in order.  The
    image cache is a function that answers a query at once.  The calls to
    [performance], which only measure, and [preloadImages], which no
    property below concerns, are left out. *)

From Stdlib Require Import ZArith QArith Qround Qabs Reals Psatz List String Bool.
From Stdlib Require DecimalString.
From Stdlib Require Import Zquot.
Import ListNotations.

#[local] Open Scope Z_scope.

Definition Point (A : Type) : Type := (A * A)%type.

(** ** JavaScript arithmetic on real numbers *)

(** Truncation toward zero, the integer part that [%] removes. *)
Definition Rtrunc (x : R) : Z :=
  if Rle_dec 0 x then Zfloor x else Zceil x.

(** [x % 1]: the remainder has the sign of the dividend. *)
Definition Rrem1 (x : R) : R := (x - IZR (Rtrunc x))%R.

(** [x % 1 === 0] *)
Definition isInteger (x : R) : Prop := Rrem1 x = 0%R.

(** The fractional part [x - floor x], which lies in [0, 1). *)
Definition fractionalPart (x : R) : R := (x - IZR (Zfloor x))%R.

(** ** Data *)

Module State.
Record t : Type := mk {
  zoom : R;
  center : Point R;
  width : R;
  height : R;
  debug : bool
}.
End State.

Module Options.
(** [TileLayerOptions].  A tile size is a positive number of pixels. *)
Record t : Type := mk {
  source : Z -> Z -> Z -> string;
  tileSize : option positive;
  minZoom : option R;
  maxZoom : option R;
  bounds : option (Point R * Point R)
}.
End Options.

Module Tiles.
(** The object returned by [getTiles]. *)
Record t : Type := mk {
  tileSize : positive;
  tileTopLeft : Point Z;
  tileBottomRight : Point Z;
  zoom : Z;
  renderedTileSize : R
}.
End Tiles.

Definition wrongTileSize : string := "Wrong tile size".

(** ** getTiles *)

Section GetTiles.

Variable options : Options.t.
Variable project : Point R -> Point R.

(** [this.options.tileSize ?? 256] *)
Definition tileSizeOf : positive :=
  match Options.tileSize options with
  | Some s => s
  | None => 256%positive
  end.

(** [state.zoom % 1 === 0 ? tileSize : 0.5 * (2 ** (state.zoom % 1)) * tileSize] *)
Definition renderedTileSizeOf (z : R) : R :=
  if Req_dec_T (Rrem1 z) 0
  then IZR (Zpos tileSizeOf)
  else (0.5 * Rpower 2 (Rrem1 z) * IZR (Zpos tileSizeOf))%R.

Definition getTiles (state : State.t) : string + Tiles.t :=
  let zoom := Zceil (State.zoom state) in
  let tileSize := tileSizeOf in
  let renderedTileSize := renderedTileSizeOf (State.zoom state) in
  if Rlt_dec renderedTileSize (IZR (Zpos tileSize) / 2) then
    inl wrongTileSize
  else
    let center := project (State.center state) in
    let boundsTopLeft :=
      project (match Options.bounds options with
               | Some b => fst b
               | None => (0, 0)%R
               end) in
    let boundsBottomRight :=
      project (match Options.bounds options with
               | Some b => snd b
               | None => (0, 0)%R
               end) in
    let topLeftX := Rmax (fst center - State.width state / 2) (fst boundsTopLeft) in
    let topLeftY := Rmax (snd center - State.height state / 2) (snd boundsTopLeft) in
    let bottomRightX :=
      (Rmin (fst center + State.width state / 2) (fst boundsBottomRight) - 1)%R in
    let bottomRightY :=
      (Rmin (snd center + State.height state / 2) (snd boundsBottomRight) - 1)%R in
    let tileTopLeft :=
      (Zfloor (topLeftX / renderedTileSize), Zfloor (topLeftY / renderedTileSize)) in
    let tileBottomRight :=
      (Zfloor (bottomRightX / renderedTileSize),
       Zfloor (bottomRightY / renderedTileSize)) in
    inr {| Tiles.tileSize := tileSize;
           Tiles.tileTopLeft := tileTopLeft;
           Tiles.tileBottomRight := tileBottomRight;
           Tiles.zoom := zoom;
           Tiles.renderedTileSize := renderedTileSize |}.

End GetTiles.

(** ** JavaScript arithmetic on rationals *)

(** Truncation toward zero. *)
Definition Qtrunc (q : Q) : Z := Z.quot (Qnum q) (Zpos (Qden q)).

(** [q % 1]: the remainder has the sign of the dividend. *)
Definition Qrem1 (q : Q) : Q := (q - inject_Z (Qtrunc q))%Q.

(** ** Numbers with the special values of division by zero *)

Inductive num : Type :=
| Fin (q : Q)
| PInf
| NInf
| NaN.

Module Num.

Definition neg (a : num) : num :=
  match a with
  | Fin q => Fin (- q)
  | PInf => NInf
  | NInf => PInf
  | NaN => NaN
  end.

Definition add (a b : num) : num :=
  match a, b with
  | NaN, _ | _, NaN => NaN
  | Fin p, Fin q => Fin (p + q)
  | PInf, NInf | NInf, PInf => NaN
  | PInf, _ | _, PInf => PInf
  | NInf, _ | _, NInf => NInf
  end.

Definition sub (a b : num) : num := add a (neg b).

(** The sign of a finite or infinite number: [Gt], [Eq] for zero, [Lt]. *)
Definition sign (a : num) : option comparison :=
  match a with
  | Fin q => Some (Qcompare q 0)
  | PInf => Some Gt
  | NInf => Some Lt
  | NaN => None
  end.

Definition inf_of (c : comparison) : num :=
  match c with
  | Gt => PInf
  | Lt => NInf
  | Eq => NaN
  end.

Definition sign_mul (c d : comparison) : comparison :=
  match c, d with
  | Eq, _ | _, Eq => Eq
  | Gt, Gt | Lt, Lt => Gt
  | Gt, Lt | Lt, Gt => Lt
  end.

Definition mul (a b : num) : num :=
  match a, b with
  | Fin p, Fin q => Fin (p * q)
  | _, _ =>
      match sign a, sign b with
      | Some c, Some d => inf_of (sign_mul c d)
      | _, _ => NaN
      end
  end.

(** A zero divisor is taken as [+0]: [0 / 0] is NaN and [p / 0] is the
    infinity with the sign of [p]. *)
Definition div (a b : num) : num :=
  match a, b with
  | NaN, _ | _, NaN => NaN
  | Fin p, Fin q =>
      match Qcompare q 0 with
      | Eq => inf_of (Qcompare p 0)
      | _ => Fin (p / q)
      end
  | Fin _, _ => Fin 0
  | _, Fin q =>
      match Qcompare q 0 with
      | Lt => neg a
      | _ => a
      end
  | _, _ => NaN
  end.

Definition abs (a : num) : num :=
  match a with
  | Fin q => Fin (Qabs q)
  | PInf | NInf => PInf
  | NaN => NaN
  end.

(** [a < b]; false when either side is NaN. *)
Definition ltb (a b : num) : bool :=
  match a, b with
  | NaN, _ | _, NaN => false
  | Fin p, Fin q => match Qcompare p q with Lt => true | _ => false end
  | NInf, NInf | PInf, _ | _, NInf => false
  | NInf, _ | _, PInf => true
  end.

(** [a === b] on numbers; false when either side is NaN. *)
Definition eqb (a b : num) : bool :=
  match a, b with
  | Fin p, Fin q => Qeq_bool p q
  | PInf, PInf | NInf, NInf => true
  | _, _ => false
  end.

Definition ofZ (z : Z) : num := Fin (inject_Z z).

End Num.

(** ** Point helpers *)

(** The second argument of the point helpers: a point or a number. *)
Inductive PointOrNumber : Type :=
| APoint (p : Point num)
| ANumber (n : num).

Definition toPoint (o : PointOrNumber) : Point num :=
  match o with
  | APoint p => p
  | ANumber n => (n, n)
  end.

(** Modelled from the spec: the helpers [add], [subtract], [multiply] and
    [divide] are imported from [../util], which is not among the source
    files.  The priority they compute is described as the Manhattan
    distance from the centre, normalised by the grid extent; they are taken
    as component-wise arithmetic on points, where a number stands for the
    point with both coordinates equal to it. *)
Definition pointwise (f : num -> num -> num) (p : Point num) (o : PointOrNumber)
  : Point num :=
  (f (fst p) (fst (toPoint o)), f (snd p) (snd (toPoint o))).

Definition add := pointwise Num.add.
Definition subtract := pointwise Num.sub.
Definition multiply := pointwise Num.mul.
Definition divide := pointwise Num.div.

Definition pointOfZ (p : Point Z) : Point num := (Num.ofZ (fst p), Num.ofZ (snd p)).

(** ** The image cache interface *)

Module GetImageOptions.
(** The options object passed to [getImage]; an absent key is [None]. *)
Record t : Type := mk {
  priority : option num;
  cacheOnly : option bool;
  preload : option bool
}.
End GetImageOptions.

Module Request.
Record t : Type := mk {
  src : string;
  opts : GetImageOptions.t
}.
End Request.

(** ** Canvases and their 2D contexts *)

Module Canvas.
(** The dimensions of the frame buffer.  Assigning [width] or [height]
    stores the assigned number. *)
Record t : Type := mk {
  width : Z;
  height : Z
}.
End Canvas.

(** A call on a 2D context, with coordinates in [N] and image sources in [I]. *)
Inductive Cmd (N I : Type) : Type :=
| SetFillStyle (style : string)
| SetStrokeStyle (style : string)
| SetLineWidth (w : N)
| SetTextAlign (a : string)
| SetTextBaseline (b : string)
| SetFont (f : string)
| FillRect (x y w h : N)
| ClearRect (x y w h : N)
| StrokeRect (x y w h : N)
| FillText (text : string) (x y : N)
| DrawImage (image : I) (dx dy dw dh : N)
| DrawImageSub (image : I) (sx sy sw sh dx dy dw dh : N)
| Save
| Restore.

Arguments SetFillStyle {N I} style.
Arguments SetStrokeStyle {N I} style.
Arguments SetLineWidth {N I} w.
Arguments SetTextAlign {N I} a.
Arguments SetTextBaseline {N I} b.
Arguments SetFont {N I} f.
Arguments FillRect {N I} x y w h.
Arguments ClearRect {N I} x y w h.
Arguments StrokeRect {N I} x y w h.
Arguments FillText {N I} text x y.
Arguments DrawImage {N I} image dx dy dw dh.
Arguments DrawImageSub {N I} image sx sy sw sh dx dy dw dh.
Arguments Save {N I}.
Arguments Restore {N I}.

(** The only image drawn onto the destination surface is the frame buffer. *)
Inductive BufferImage : Type := TheFrameBuffer.

(** The frame buffer of a new layer: [document.createElement('canvas')]
    (300 by 150) in Firefox, [new OffscreenCanvas(0, 0)] elsewhere. *)
Definition newFrameBuffer (isFirefox : bool) : Canvas.t :=
  if isFirefox then Canvas.mk 300 150 else Canvas.mk 0 0.

(** Decimal rendering of an integer inside a template string. *)
Definition showZ (z : Z) : string :=
  DecimalString.NilZero.string_of_int (Z.to_int z).

(** ** The effects of a pass

    A pass reads and resizes the layer's frame buffer, calls the buffer's
    and the destination's 2D contexts, and queries the image cache.  The
    calls are recorded in the order they are made.  A pass ends normally,
    by a thrown error, or does not end within the recursion depth allowed
    to it. *)

Inductive Outcome (A : Type) : Type :=
| Ok (a : A)
| Throw (message : string)
| OutOfFuel.

Arguments Ok {A} a.
Arguments Throw {A} message.
Arguments OutOfFuel {A}.

Module Fallback.
(** The object returned by [getFallbackTile] when an ancestor is cached. *)
Record t (Image : Type) : Type := mk {
  image : Image;
  scale : Q;
  x : Q;
  y : Q
}.
Arguments mk {Image} image scale x y.
Arguments image {Image} t.
Arguments scale {Image} t.
Arguments x {Image} t.
Arguments y {Image} t.
End Fallback.

Section Layer.

(** [ImageBitmap | HTMLImageElement] *)
Variable Image : Type.

Record World : Type := mkWorld {
  frameBuffer : Canvas.t;
  bufferCtx : list (Cmd Q Image);
  context : list (Cmd R BufferImage);
  requests : list Request.t
}.

Definition M (A : Type) : Type := World -> Outcome A * World.

Definition ret {A : Type} (a : A) : M A := fun w => (Ok a, w).

Definition bind {A B : Type} (m : M A) (k : A -> M B) : M B :=
  fun w =>
    match m w with
    | (Ok a, w') => k a w'
    | (Throw e, w') => (Throw e, w')
    | (OutOfFuel, w') => (OutOfFuel, w')
    end.

Definition throw {A : Type} (message : string) : M A := fun w => (Throw message, w).

Definition outOfFuel {A : Type} : M A := fun w => (OutOfFuel, w).

#[local] Notation "x <- m ;; k" := (bind m (fun x => k))
  (at level 61, m at next level, right associativity).
#[local] Notation "m ;; k" := (bind m (fun _ => k))
  (at level 61, right associativity).

Definition when (b : bool) (m : M unit) : M unit := if b then m else ret tt.

(** [for (const a of l) body(a)] *)
Fixpoint forEach {A : Type} (l : list A) (body : A -> M unit) : M unit :=
  match l with
  | [] => ret tt
  | a :: l' => body a ;; forEach l' body
  end.

(** The values taken by [i] in [for (let i = lo; i <= hi; i++)]. *)
Definition Zrange (lo hi : Z) : list Z :=
  map (fun k => lo + Z.of_nat k) (seq 0 (Z.to_nat (hi - lo + 1))).

Definition getBuffer : M Canvas.t := fun w => (Ok (frameBuffer w), w).

(** [buffer.width = v] *)
Definition setBufferWidth (v : Z) : M unit :=
  fun w =>
    (Ok tt, mkWorld (Canvas.mk v (Canvas.height (frameBuffer w)))
                    (bufferCtx w) (context w) (requests w)).

(** [buffer.height = v] *)
Definition setBufferHeight (v : Z) : M unit :=
  fun w =>
    (Ok tt, mkWorld (Canvas.mk (Canvas.width (frameBuffer w)) v)
                    (bufferCtx w) (context w) (requests w)).

(** A call on the frame buffer's context. *)
Definition onBuffer (c : Cmd Q Image) : M unit :=
  fun w => (Ok tt, mkWorld (frameBuffer w) (bufferCtx w ++ [c]) (context w) (requests w)).

(** A call on the destination context. *)
Definition onContext (c : Cmd R BufferImage) : M unit :=
  fun w => (Ok tt, mkWorld (frameBuffer w) (bufferCtx w) (context w ++ [c]) (requests w)).

Definition GetImage : Type := string -> GetImageOptions.t -> option Image.

(** [getImage(src, opts)]: the query is recorded and answered. *)
Definition query (getImage : GetImage) (src : string) (opts : GetImageOptions.t)
  : M (option Image) :=
  fun w =>
    (Ok (getImage src opts),
     mkWorld (frameBuffer w) (bufferCtx w) (context w)
             (requests w ++ [Request.mk src opts])).

(** [LayerRenderContext] and [LayerPreloadContext], without the
    destination context, whose calls are recorded in the world. *)
Record RenderContext : Type := mkRenderContext {
  state : State.t;
  project : Point R -> Point R;
  getImage : GetImage;
  reason : string;
  backgroundColor : option string
}.

Variable options : Options.t.

(** [getFallbackTile(getImage, x, y, zoom, scale = 1)]; [fuel] bounds the
    depth of the recursion. *)
Fixpoint getFallbackTile (fuel : nat) (getImage : GetImage)
    (x y : Q) (zoom : Z) (scale : Q) : M (option (Fallback.t Image)) :=
  match fuel with
  | O => outOfFuel
  | S fuel' =>
      if zoom =? 0 then ret None
      else
        let fallbackX := (x / 2)%Q in
        let fallbackY := (y / 2)%Q in
        let src :=
          Options.source options (Qfloor fallbackX) (Qfloor fallbackY) (zoom - 1) in
        image <- query getImage src
                   (GetImageOptions.mk None (Some true) None) ;;
        match image with
        | Some image =>
            ret (Some (Fallback.mk image (scale * (1 # 2))%Q
                                  (Qrem1 fallbackX) (Qrem1 fallbackY)))
        | None =>
            getFallbackTile fuel' getImage fallbackX fallbackY (zoom - 1)
                            (scale * (1 # 2))%Q
        end
  end.

(** [(|d[0]| + |d[1]|) / 2] for
    [d = multiply(subtract(divide(subtract([x, y], tileTopLeft), size), 0.5), 2)] *)
Definition distanceOf (tileTopLeft : Point Z) (size : Point num) (x y : Z) : num :=
  let distanceFromCenter :=
    multiply
      (subtract
         (divide (subtract (pointOfZ (x, y)) (APoint (pointOfZ tileTopLeft)))
                 (APoint size))
         (ANumber (Fin (1 # 2))))
      (ANumber (Fin 2)) in
  Num.div (Num.add (Num.abs (fst distanceFromCenter))
                   (Num.abs (snd distanceFromCenter)))
          (Fin 2).

(** The extent by which [render] normalises: [subtract(tileBottomRight, tileTopLeft)] *)
Definition renderSize (t : Tiles.t) : Point num :=
  subtract (pointOfZ (Tiles.tileBottomRight t))
           (APoint (pointOfZ (Tiles.tileTopLeft t))).

(** The extent by which [preload] normalises:
    [subtract(tileBottomRight, add(tileTopLeft, 1))] *)
Definition preloadSize (t : Tiles.t) : Point num :=
  subtract (pointOfZ (Tiles.tileBottomRight t))
           (APoint (add (pointOfZ (Tiles.tileTopLeft t)) (ANumber (Fin 1)))).

(** [priority: 2 - distance] *)
Definition renderPriority (t : Tiles.t) (x y : Z) : num :=
  Num.sub (Fin 2) (distanceOf (Tiles.tileTopLeft t) (renderSize t) x y).

(** [priority: 3 - distance] *)
Definition preloadPriority (t : Tiles.t) (x y : Z) : num :=
  Num.sub (Fin 3) (distanceOf (Tiles.tileTopLeft t) (preloadSize t) x y).

Definition bufferWidthOf (t : Tiles.t) : Z :=
  (fst (Tiles.tileBottomRight t) - fst (Tiles.tileTopLeft t) + 1)
  * Zpos (Tiles.tileSize t).

Definition bufferHeightOf (t : Tiles.t) : Z :=
  (snd (Tiles.tileBottomRight t) - snd (Tiles.tileTopLeft t) + 1)
  * Zpos (Tiles.tileSize t).

(** The test of [render] on the buffer's size. *)
Definition mustResize (buffer : Canvas.t) (bufferWidth bufferHeight : Z) : bool :=
  (Canvas.width buffer <? bufferWidth)
  || (Canvas.height buffer <? bufferHeight)
  || (Canvas.width buffer >? bufferWidth * 4)
  || (Canvas.height buffer >? bufferHeight * 4).

(** The body of the tile loop of [render] for the tile [(x, y)]. *)
Definition drawTile (fuel : nat) (c : RenderContext) (t : Tiles.t) (x y : Z)
  : M unit :=
  let tileSize := inject_Z (Zpos (Tiles.tileSize t)) in
  let dx := inject_Z ((x - fst (Tiles.tileTopLeft t)) * Zpos (Tiles.tileSize t)) in
  let dy := inject_Z ((y - snd (Tiles.tileTopLeft t)) * Zpos (Tiles.tileSize t)) in
  let src := Options.source options x y (Tiles.zoom t) in
  tile <- query (getImage c) src
            (GetImageOptions.mk (Some (renderPriority t x y))
                                (Some (String.eqb (reason c) "ease"))
                                None) ;;
  match tile with
  | Some tile =>
      onBuffer (DrawImage tile dx dy tileSize tileSize) ;;
      onBuffer (SetStrokeStyle "orange")
  | None =>
      fallback <- getFallbackTile fuel (getImage c)
                    (inject_Z x) (inject_Z y) (Tiles.zoom t) 1 ;;
      match fallback with
      | Some f =>
          onBuffer (DrawImageSub (Fallback.image f)
                      (Fallback.x f * tileSize)%Q (Fallback.y f * tileSize)%Q
                      (Fallback.scale f * tileSize)%Q (Fallback.scale f * tileSize)%Q
                      dx dy tileSize tileSize)
      | None =>
          onBuffer (ClearRect dx dy tileSize tileSize)
      end ;;
      when (State.debug (state c))
        (onBuffer (SetFillStyle
                     (match fallback with
                      | Some _ => "#0000ff33"
                      | None => "#220000"
                      end)) ;;
         onBuffer (FillRect dx dy tileSize tileSize))
  end.

(** [renderDebugGrid(context, x, y, zoom, width, height)] *)
Definition renderDebugGrid (x y zoom : Z) (width height : R) : M unit :=
  let lineWidth := 4%R in
  onContext (SetLineWidth lineWidth) ;;
  onContext (SetTextAlign "center") ;;
  onContext (SetTextBaseline "top") ;;
  onContext (SetFont "bold 16px monospace") ;;
  onContext (SetStrokeStyle
               (if Z.rem (x + y) 2 =? 0 then "#f4433633" else "#2196f333")) ;;
  onContext (SetFillStyle
               (if Z.rem (x + y) 2 =? 0 then "#f44336" else "#2196f3")) ;;
  onContext (StrokeRect (IZR x * width + lineWidth / 2)%R
                        (IZR y * height + lineWidth / 2)%R
                        (width - lineWidth)%R (height - lineWidth)%R) ;;
  onContext (FillText (showZ x ++ ", " ++ showZ y ++ ", " ++ showZ zoom)
                      (IZR x * width + width / 2)%R
                      (IZR y * height + height / 2)%R).

(** Grow the buffer if it is not large enough, or shrink it if it is way too
    large; either way to twice the required size. *)
Definition ensureBuffer (t : Tiles.t) : M unit :=
let bufferWidth := bufferWidthOf t in
let bufferHeight := bufferHeightOf t in
buffer <- getBuffer ;;
when (mustResize buffer bufferWidth bufferHeight)
  (setBufferWidth (bufferWidth * 2) ;;
   setBufferHeight (bufferHeight * 2)).

(** Fill the whole buffer with the background colour of the map. *)
Definition clearBuffer (c : RenderContext) : M unit :=
onBuffer (SetFillStyle (match backgroundColor c with
                        | Some color => color
                        | None => "#000"
                        end)) ;;
buffer <- getBuffer ;;
onBuffer (FillRect 0%Q 0%Q (inject_Z (Canvas.width buffer))
                           (inject_Z (Canvas.height buffer))).

(** Iterate through all tiles in the viewport. *)
Definition drawTiles (fuel : nat) (c : RenderContext) (t : Tiles.t) : M unit :=
forEach (Zrange (fst (Tiles.tileTopLeft t)) (fst (Tiles.tileBottomRight t))) (fun x =>
  forEach (Zrange (snd (Tiles.tileTopLeft t)) (snd (Tiles.tileBottomRight t))) (fun y =>
    drawTile fuel c t x y)).

(** Draw the buffer to the actual canvas. *)
Definition blitToSurface (t : Tiles.t) : M unit :=
let tileTopLeft := Tiles.tileTopLeft t in
let tileBottomRight := Tiles.tileBottomRight t in
let renderedTileSize := Tiles.renderedTileSize t in
onContext (DrawImageSub TheFrameBuffer
             0%R 0%R (IZR (bufferWidthOf t)) (IZR (bufferHeightOf t))
             (IZR (fst tileTopLeft) * renderedTileSize)%R
             (IZR (snd tileTopLeft) * renderedTileSize)%R
             (IZR (fst tileBottomRight - fst tileTopLeft + 1) * renderedTileSize)%R
             (IZR (snd tileBottomRight - snd tileTopLeft + 1) * renderedTileSize)%R).

(** The grid drawn over the canvas when [state.debug] is set. *)
Definition drawDebugOverlay (c : RenderContext) (t : Tiles.t) : M unit :=
let renderedTileSize := Tiles.renderedTileSize t in
when (State.debug (state c))
  (onContext Save ;;
   forEach (Zrange (fst (Tiles.tileTopLeft t)) (fst (Tiles.tileBottomRight t))) (fun x =>
     forEach (Zrange (snd (Tiles.tileTopLeft t)) (snd (Tiles.tileBottomRight t))) (fun y =>
       renderDebugGrid x y (Tiles.zoom t) renderedTileSize renderedTileSize)) ;;
   onContext Restore).

(** The steps of [render] that follow the resizing of the buffer. *)
Definition paintTiles (fuel : nat) (c : RenderContext) (t : Tiles.t) : M unit :=
clearBuffer c ;;
drawTiles fuel c t ;;
blitToSurface t ;;
drawDebugOverlay c t.

(** The steps of [render] that follow [getTiles].  The calls to
    [performance.mark] and [performance.measure] are not recorded. *)
Definition renderTiles (fuel : nat) (c : RenderContext) (t : Tiles.t) : M unit :=
ensureBuffer t ;;
paintTiles fuel c t.

(** [render({ context, state, project, getImage, reason, map })] *)
Definition render (fuel : nat) (c : RenderContext) : M unit :=
  match getTiles options (project c) (state c) with
  | inl message => throw message
  | inr t => renderTiles fuel c t
  end.

(** The steps of [preload] that follow [getTiles]. *)
Definition preloadTiles (getImage : GetImage) (t : Tiles.t) : M unit :=
  let tileTopLeft := Tiles.tileTopLeft t in
  let tileBottomRight := Tiles.tileBottomRight t in
  forEach (Zrange (fst tileTopLeft) (fst tileBottomRight)) (fun x =>
    forEach (Zrange (snd tileTopLeft) (snd tileBottomRight)) (fun y =>
      let src := Options.source options x y (Tiles.zoom t) in
      query getImage src
        (GetImageOptions.mk (Some (preloadPriority t x y)) None (Some true)) ;;
      ret tt)) ;;
  buffer <- getBuffer ;;
  let bufferWidth := bufferWidthOf t in
  let bufferHeight := bufferHeightOf t in
  when ((Canvas.width buffer <? bufferWidth * 2)
        || (Canvas.height buffer <? bufferHeight * 2))
    (setBufferWidth (bufferWidth * 2) ;;
     setBufferHeight (bufferHeight * 2)).

(** [preload(context)], for a context with [state], [project] and [getImage]. *)
Definition preload (state : State.t) (project : Point R -> Point R)
    (getImage : GetImage) : M unit :=
  match getTiles options project state with
  | inl message => throw message
  | inr t => preloadTiles getImage t
  end.

End Layer.

Arguments mkWorld {Image} frameBuffer bufferCtx context requests.
Arguments frameBuffer {Image} w.
Arguments bufferCtx {Image} w.
Arguments context {Image} w.
Arguments requests {Image} w.
Arguments ret {Image A} a w.
Arguments bind {Image A B} m k w.
Arguments forEach {Image A} l body.
Arguments onBuffer {Image} c w.
Arguments onContext {Image} c w.
Arguments query {Image} getImage src opts w.
Arguments getBuffer {Image} w.
Arguments setBufferWidth {Image} v w.
Arguments setBufferHeight {Image} v w.
Arguments when {Image} b m.
Arguments throw {Image A} message w.
Arguments outOfFuel {Image A} w.
Arguments mkRenderContext {Image} state project getImage reason backgroundColor.
Arguments state {Image} r.
Arguments project {Image} r.
Arguments getImage {Image} r.
Arguments reason {Image} r.
Arguments backgroundColor {Image} r.
Arguments getFallbackTile {Image} options fuel getImage x y zoom scale.
Arguments drawTile {Image} options fuel c t x y.
Arguments renderDebugGrid {Image} x y zoom width height.
Arguments ensureBuffer {Image} t.
Arguments clearBuffer {Image} c.
Arguments drawTiles {Image} options fuel c t.
Arguments blitToSurface {Image} t.
Arguments drawDebugOverlay {Image} c t.
Arguments paintTiles {Image} options fuel c t.
Arguments renderTiles {Image} options fuel c t.
Arguments render {Image} options fuel c.
Arguments preloadTiles {Image} options getImage t.
Arguments preload {Image} options state project getImage.

(** ** A sample layer

    A layer over a 768 by 768 map with 256-pixel tiles, whose tiles are
    keyed [zoom/x/y], seen through the identity projection. *)

Definition sampleSource (x y zoom : Z) : string :=
  showZ zoom ++ "/" ++ showZ x ++ "/" ++ showZ y.

Definition sampleOptions : Options.t :=
  Options.mk sampleSource None None None (Some ((0, 0), (768, 768)))%R.

(** The whole map at zoom level 1: a grid of three by three tiles. *)
Definition sampleState : State.t :=
  State.mk 1%R (384, 384)%R 768%R 768%R false.

Definition sampleTiles : Tiles.t :=
  Tiles.mk 256 (0, 0) (2, 2) 1 256%R.

(** The same view half a level below zero. *)
Definition negativeState : State.t :=
  State.mk (- (1 / 2))%R (384, 384)%R 768%R 768%R false.

(** The same view half a level above zero. *)
Definition halfState : State.t :=
  State.mk (1 / 2)%R (384, 384)%R 768%R 768%R false.

Definition identityProjection (p : Point R) : Point R := p.

(** An image cache that holds nothing, and one that holds every tile. *)
Definition emptyCache : GetImage string := fun _ _ => None.
Definition fullCache : GetImage string := fun src _ => Some src.

(** A cache that holds the single tile of zoom level 0. *)
Definition rootCache : GetImage string :=
  fun src _ => if String.eqb src "0/0/0" then Some src else None.

Definition sampleContext (getImage : GetImage string) : RenderContext string :=
  mkRenderContext sampleState identityProjection getImage "pan" None.

Definition emptyWorld (buffer : Canvas.t) : World string :=
  mkWorld buffer [] [] [].

(** ** Measures used in the statements *)

(** The number of tiles of a level that one tile [k] levels up covers along
    an axis. *)
Definition pow2 (k : nat) : Q := inject_Z (2 ^ Z.of_nat k).

(** The options of a query restricted to the cache: [{ cacheOnly: true }]. *)
Definition cacheOnlyQuery : GetImageOptions.t :=
  GetImageOptions.mk None (Some true) None.

(** [steady w w']: between [w] and [w'] the frame buffer kept its size and
    the records of calls only grew. *)
Definition steady {Image : Type} (w w' : World Image) : Prop :=
  frameBuffer w' = frameBuffer w
  /\ (exists cs, bufferCtx w' = bufferCtx w ++ cs)
  /\ (exists cs, context w' = context w ++ cs)
  /\ (exists rs, requests w' = requests w ++ rs).

(** A computation that, however it ends, neither resizes the buffer nor
    retracts a recorded call. *)
Definition draws {Image A : Type} (m : M Image A) : Prop :=
  forall w, steady w (snd (m w)).

(** A computation that always ends normally. *)
Definition completes {Image A : Type} (m : M Image A) : Prop :=
  forall w, exists a, fst (m w) = Ok a.

(** The size [render] leaves a buffer of size [buffer] at, for the grid [t]. *)
Definition ensured (buffer : Canvas.t) (t : Tiles.t) : Canvas.t :=
  if mustResize buffer (bufferWidthOf t) (bufferHeightOf t)
  then Canvas.mk (bufferWidthOf t * 2) (bufferHeightOf t * 2)
  else buffer.

(** ** Further measures and samples *)

(** A computation all of whose queries to the image cache satisfy [P],
    however it ends. *)
Definition asks {Image A : Type} (P : Request.t -> Prop) (m : M Image A) : Prop :=
  forall w, exists rs, requests (snd (m w)) = requests w ++ rs /\ Forall P rs.

(** The sample view one zoom level below zero, and its grid. *)
Definition belowZeroState : State.t :=
  State.mk (-1)%R (384, 384)%R 768%R 768%R false.

Definition belowZeroTiles : Tiles.t :=
  Tiles.mk 256 (0, 0) (2, 2) (-1) 256%R.

(** The sample layer without the [bounds] option, and its grid. *)
Definition unboundedOptions : Options.t :=
  Options.mk sampleSource None None None None.

Definition unboundedTiles : Tiles.t :=
  Tiles.mk 256 (0, 0) (-1, -1) 1 256%R.

(** The sample view over a map one tile wide. *)
Definition columnOptions : Options.t :=
  Options.mk sampleSource None None None (Some ((0, 0), (256, 768)))%R.

Definition columnTiles : Tiles.t :=
  Tiles.mk 256 (0, 0) (0, 2) 1 256%R.

(** The sample view over a map two tiles wide. *)
Definition pairOptions : Options.t :=
  Options.mk sampleSource None None None (Some ((0, 0), (512, 768)))%R.

Definition pairTiles : Tiles.t :=
  Tiles.mk 256 (0, 0) (1, 2) 1 256%R.

(** The sample view with the overlay of the debug mode. *)
Definition debugState : State.t :=
  State.mk 1%R (384, 384)%R 768%R 768%R true.

(** A re-render at the end of an easing. *)
Definition easeContext (getImage : GetImage string) : RenderContext string :=
  mkRenderContext sampleState identityProjection getImage "ease" None.

(** The key of the ancestor [k] levels above the tile [(x, y)] of level
    [zoom]: the key of the [k]-th query of the fallback resolver. *)
Definition ancestor (options : Options.t) (x y : Q) (zoom : Z) (k : nat) : string :=
  Options.source options (Qfloor (x / pow2 k)) (Qfloor (y / pow2 k))
                 (zoom - Z.of_nat k).

(** The world [w] after more calls on the buffer, more calls on the
    destination and more queries have been recorded. *)
Definition record {Image : Type} (w : World Image) (b : list (Cmd Q Image))
    (c : list (Cmd R BufferImage)) (r : list Request.t) : World Image :=
  mkWorld (frameBuffer w) (bufferCtx w ++ b) (context w ++ c) (requests w ++ r).

(** What the two nested loops over the grid collect, in the order they run:
    column by column, and down each column. *)
Definition cells {A : Type} (t : Tiles.t) (f : Z -> Z -> list A) : list A :=
  flat_map
    (fun x =>
       flat_map (fun y => f x y)
         (Zrange (snd (Tiles.tileTopLeft t)) (snd (Tiles.tileBottomRight t))))
    (Zrange (fst (Tiles.tileTopLeft t)) (fst (Tiles.tileBottomRight t))).

(** The sample layer seen from far outside its bounds: the viewport lies
    left of and above the map, and the grid is inverted. *)
Definition outsideState : State.t :=
  State.mk 1%R (-2000, -2000)%R 768%R 768%R false.

Definition outsideTiles : Tiles.t :=
  Tiles.mk 256 (0, 0) (-7, -7) 1 256%R.

Definition outsideContext (getImage : GetImage string) : RenderContext string :=
  mkRenderContext outsideState identityProjection getImage "pan" None.

(** * Properties *)

(** ** The viewport-to-tile mapping *)

Lemma fractionalPart_bounds (x : R) : (0 <= fractionalPart x < 1)%R.
Proof.
  unfold fractionalPart. generalize (Zfloor_bound x). lra.
Qed.

Lemma Rrem1_nonneg (x : R) : (0 <= x)%R -> Rrem1 x = fractionalPart x.
Proof.
  intros Hx. unfold Rrem1, Rtrunc, fractionalPart.
  destruct (Rle_dec 0 x); [reflexivity | contradiction].
Qed.

Lemma Rrem1_neg (x : R) :
  (x < 0)%R -> Rrem1 x = (x - IZR (Zceil x))%R /\ (-1 < Rrem1 x <= 0)%R.
Proof.
  intros Hx. unfold Rrem1, Rtrunc.
  destruct (Rle_dec 0 x) as [H | _]; [lra |].
  split; [reflexivity |]. generalize (Zceil_bound x). lra.
Qed.

Lemma Rrem1_IZR (n : Z) : Rrem1 (IZR n) = 0%R.
Proof.
  unfold Rrem1, Rtrunc. destruct (Rle_dec 0 (IZR n)).
  - rewrite ZfloorZ. lra.
  - replace (Zceil (IZR n)) with n; [lra |].
    symmetry. apply Zceil_eq. lra.
Qed.

(** The test [x % 1 === 0] holds exactly of the integers. *)
Lemma isInteger_iff (x : R) : isInteger x <-> exists n : Z, x = IZR n.
Proof.
  unfold isInteger. split.
  - intros H. exists (Rtrunc x). unfold Rrem1 in H. lra.
  - intros [n ->]. apply Rrem1_IZR.
Qed.

Lemma Rpower_2_gt_1 (f : R) : (0 < f)%R -> (1 < Rpower 2 f)%R.
Proof.
  intros Hf. apply Rle_lt_trans with (Rpower 2 0).
  - rewrite Rpower_O; lra.
  - apply Rpower_lt; lra.
Qed.

Lemma Rpower_2_lt_1 (f : R) : (f < 0)%R -> (Rpower 2 f < 1)%R.
Proof.
  intros Hf. apply Rlt_le_trans with (Rpower 2 0).
  - apply Rpower_lt; lra.
  - rewrite Rpower_O; lra.
Qed.

Lemma tileSize_pos (options : Options.t) : (0 < IZR (Zpos (tileSizeOf options)))%R.
Proof. apply IZR_lt. reflexivity. Qed.

(** The rendered size falls below half a tile exactly when [zoom % 1] is
    negative, that is, for a negative zoom that is not an integer. *)
Lemma renderedTileSizeOf_small (options : Options.t) (z : R) :
  (renderedTileSizeOf options z < IZR (Zpos (tileSizeOf options)) / 2)%R
  <-> (Rrem1 z < 0)%R.
Proof.
  pose proof (tileSize_pos options) as Hs.
  unfold renderedTileSizeOf.
  destruct (Req_dec_T (Rrem1 z) 0) as [E | N].
  - rewrite E. split; intros H; lra.
  - destruct (Rlt_le_dec (Rrem1 z) 0) as [Hneg | Hpos].
    + pose proof (Rpower_2_lt_1 _ Hneg). split; [intros _; exact Hneg | intros _; nra].
    + assert (0 < Rrem1 z)%R as Hf by lra.
      pose proof (Rpower_2_gt_1 _ Hf). split; intros H'; [nra | lra].
Qed.

Lemma getTiles_throws (options : Options.t) project (state : State.t) :
  (Rrem1 (State.zoom state) < 0)%R ->
  getTiles options project state = inl wrongTileSize.
Proof.
  intros H. unfold getTiles.
  destruct (Rlt_dec _ _) as [_ | N]; [reflexivity |].
  exfalso. apply N. apply renderedTileSizeOf_small. exact H.
Qed.

Lemma getTiles_returns (options : Options.t) project (state : State.t) :
  (0 <= Rrem1 (State.zoom state))%R ->
  exists t, getTiles options project state = inr t
    /\ Tiles.tileSize t = tileSizeOf options
    /\ Tiles.zoom t = Zceil (State.zoom state)
    /\ Tiles.renderedTileSize t = renderedTileSizeOf options (State.zoom state).
Proof.
  intros H. unfold getTiles.
  destruct (Rlt_dec _ _) as [L | _].
  - apply renderedTileSizeOf_small in L. lra.
  - eexists. split; [reflexivity |]. simpl. auto.
Qed.

Lemma Rrem1_sign (x : R) : (0 <= x)%R \/ isInteger x -> (0 <= Rrem1 x)%R.
Proof.
  intros [Hx | Hi].
  - rewrite Rrem1_nonneg by exact Hx. apply fractionalPart_bounds.
  - rewrite Hi. lra.
Qed.

(** C3, as amended: for a view state whose zoom is not negative, or is an
    integer, [getTiles] returns the zoom level [ceil(state.zoom)], and a
    rendered tile size that is [tileSize] when the zoom is an integer and
    [0.5 * 2^(fractional part of the zoom) * tileSize] otherwise. *)
Theorem getTiles_zoom_and_size (options : Options.t) project (state : State.t) :
  (0 <= State.zoom state)%R \/ isInteger (State.zoom state) ->
  exists t, getTiles options project state = inr t
    /\ Tiles.zoom t = Zceil (State.zoom state)
    /\ (isInteger (State.zoom state) ->
        Tiles.renderedTileSize t = IZR (Zpos (tileSizeOf options)))
    /\ (~ isInteger (State.zoom state) ->
        Tiles.renderedTileSize t =
          (0.5 * Rpower 2 (fractionalPart (State.zoom state))
           * IZR (Zpos (tileSizeOf options)))%R).
Proof.
  intros H.
  destruct (getTiles_returns options project state (Rrem1_sign _ H))
    as (t & Ht & _ & Hz & Hr).
  exists t. repeat split; try assumption.
  - intros Hi. rewrite Hr. unfold renderedTileSizeOf.
    destruct (Req_dec_T _ _) as [_ | N]; [reflexivity | contradiction].
  - intros Hn. rewrite Hr. unfold renderedTileSizeOf.
    destruct (Req_dec_T _ _) as [E | _]; [contradiction |].
    destruct H as [Hx | Hi]; [| contradiction].
    rewrite Rrem1_nonneg by exact Hx. reflexivity.
Qed.

Lemma Rrem1_half : Rrem1 (1 / 2) = (1 / 2)%R.
Proof.
  rewrite Rrem1_nonneg by lra. unfold fractionalPart.
  rewrite (Zfloor_eq 0) by lra. lra.
Qed.

Lemma Rrem1_minus_half : Rrem1 (- (1 / 2)) = (- (1 / 2))%R.
Proof.
  destruct (Rrem1_neg (- (1 / 2))) as [E _]; [lra |].
  rewrite E, (Zceil_eq 0) by lra. lra.
Qed.

Lemma getTiles_zoom_and_size_witness :
  exists t, getTiles sampleOptions identityProjection halfState = inr t
    /\ Tiles.zoom t = Zceil (1 / 2)
    /\ Tiles.renderedTileSize t = (0.5 * Rpower 2 (1 / 2) * 256)%R.
Proof.
  destruct (getTiles_zoom_and_size sampleOptions identityProjection halfState)
    as (t & Ht & Hz & _ & Hr).
  - left. simpl. lra.
  - exists t. split; [exact Ht |]. split; [exact Hz |].
    rewrite Hr.
    + simpl. unfold fractionalPart. rewrite (Zfloor_eq 0) by lra.
      replace (1 / 2 - 0)%R with (1 / 2)%R by lra. reflexivity.
    + unfold isInteger. simpl. rewrite Rrem1_half. lra.
Defined.

(** C3, as stated, fails half a zoom level below zero: [getTiles] throws
    and returns no zoom level and no tile size. *)
Lemma getTiles_negative_fraction_throws :
  getTiles sampleOptions identityProjection negativeState = inl wrongTileSize
  /\ ~ (exists t,
         getTiles sampleOptions identityProjection negativeState = inr t
         /\ Tiles.zoom t = Zceil (State.zoom negativeState)
         /\ (isInteger (State.zoom negativeState) ->
             Tiles.renderedTileSize t = IZR (Zpos (tileSizeOf sampleOptions)))
         /\ (~ isInteger (State.zoom negativeState) ->
             Tiles.renderedTileSize t =
               (0.5 * Rpower 2 (fractionalPart (State.zoom negativeState))
                * IZR (Zpos (tileSizeOf sampleOptions)))%R)).
Proof.
  assert (getTiles sampleOptions identityProjection negativeState
          = inl wrongTileSize) as E.
  { apply getTiles_throws. simpl. rewrite Rrem1_minus_half. lra. }
  split; [exact E |].
  intros (t & Ht & _). rewrite E in Ht. discriminate.
Qed.

(** C4: when the computed rendered tile size is smaller than half the tile
    size, [getTiles] throws the error [Wrong tile size]; when it is at
    least half the tile size, [getTiles] returns the grid, with that
    rendered tile size. *)
Theorem getTiles_size_check (options : Options.t) project (state : State.t) :
  ((renderedTileSizeOf options (State.zoom state)
    < IZR (Zpos (tileSizeOf options)) / 2)%R ->
   getTiles options project state = inl wrongTileSize)
  /\ ((renderedTileSizeOf options (State.zoom state)
       >= IZR (Zpos (tileSizeOf options)) / 2)%R ->
      exists t, getTiles options project state = inr t
        /\ Tiles.renderedTileSize t = renderedTileSizeOf options (State.zoom state)).
Proof.
  split; intros H.
  - apply getTiles_throws. apply renderedTileSizeOf_small in H. exact H.
  - destruct (Rlt_le_dec (Rrem1 (State.zoom state)) 0) as [L | G].
    + apply (proj2 (renderedTileSizeOf_small options _)) in L. lra.
    + destruct (getTiles_returns options project state G) as (t & Ht & _ & _ & Hr).
      exists t. split; assumption.
Qed.

Lemma getTiles_size_check_witness :
  getTiles sampleOptions identityProjection negativeState = inl wrongTileSize
  /\ exists t, getTiles sampleOptions identityProjection sampleState = inr t
       /\ Tiles.renderedTileSize t = 256%R.
Proof.
  split.
  - apply (proj1 (getTiles_size_check sampleOptions identityProjection negativeState)).
    apply renderedTileSizeOf_small. simpl. rewrite Rrem1_minus_half. lra.
  - destruct (proj2 (getTiles_size_check sampleOptions identityProjection sampleState))
      as (t & Ht & Hr).
    + unfold renderedTileSizeOf. simpl State.zoom.
      destruct (Req_dec_T _ _) as [_ | N].
      * change (256 >= 256 / 2)%R. lra.
      * exfalso. apply N. apply (Rrem1_IZR 1).
    + exists t. split; [exact Ht |]. rewrite Hr.
      unfold renderedTileSizeOf. simpl State.zoom.
      destruct (Req_dec_T _ _) as [_ | N]; [reflexivity |].
      exfalso. apply N. apply (Rrem1_IZR 1).
Defined.

(** ** The fallback resolver *)

Lemma Qtrunc_floor (q : Q) : (0 <= q)%Q -> Qtrunc q = Qfloor q.
Proof.
  destruct q as [n d]. unfold Qle, Qtrunc, Qfloor. simpl. intros H.
  apply Z.quot_div_nonneg; lia.
Qed.

Lemma Qtrunc_ceiling (q : Q) : (q <= 0)%Q -> Qtrunc q = Qceiling q.
Proof.
  destruct q as [n d]. unfold Qle, Qtrunc, Qceiling, Qfloor. simpl. intros H.
  rewrite <- (Z.opp_involutive n) at 1.
  rewrite Z.quot_opp_l by lia.
  rewrite Z.quot_div_nonneg by lia. reflexivity.
Qed.

Lemma Qtrunc_comp (p q : Q) : (p == q)%Q -> Qtrunc p = Qtrunc q.
Proof.
  intros E. destruct (Qlt_le_dec p 0) as [L | G].
  - rewrite (Qtrunc_ceiling p), (Qtrunc_ceiling q).
    + rewrite E. reflexivity.
    + rewrite <- E. apply Qlt_le_weak. exact L.
    + apply Qlt_le_weak. exact L.
  - rewrite (Qtrunc_floor p), (Qtrunc_floor q).
    + rewrite E. reflexivity.
    + rewrite <- E. exact G.
    + exact G.
Qed.

Lemma Qrem1_comp (p q : Q) : (p == q)%Q -> (Qrem1 p == Qrem1 q)%Q.
Proof.
  intros E. unfold Qrem1. rewrite (Qtrunc_comp p q E), E. reflexivity.
Qed.

Lemma pow2_pos (k : nat) : (0 < pow2 k)%Q.
Proof.
  unfold pow2, Qlt. simpl. pose proof (Z.pow_pos_nonneg 2 (Z.of_nat k)). lia.
Qed.

Lemma pow2_S (k : nat) : (pow2 (S k) == 2 * pow2 k)%Q.
Proof.
  unfold pow2. rewrite Nat2Z.inj_succ, Z.pow_succ_r by lia.
  rewrite inject_Z_mult. reflexivity.
Qed.

Lemma halve_pow2 (x : Q) (k : nat) : (x / 2 / pow2 k == x / pow2 (S k))%Q.
Proof.
  rewrite pow2_S. pose proof (pow2_pos k) as H.
  field. intros E. rewrite E in H. discriminate.
Qed.

(** For a coordinate that is not negative, [%] takes the fractional part. *)
Lemma Qrem1_nonneg (q : Q) :
  (0 <= q)%Q -> Qrem1 q = (q - inject_Z (Qfloor q))%Q /\ (0 <= Qrem1 q < 1)%Q.
Proof.
  intros H. unfold Qrem1. rewrite (Qtrunc_floor q H).
  split; [reflexivity |].
  pose proof (Qfloor_le q) as Hl. pose proof (Qlt_floor q) as Hu.
  rewrite inject_Z_plus in Hu.
  assert (q - inject_Z (Qfloor q) + inject_Z (Qfloor q) == q)%Q as C by ring.
  split.
  - apply (Qplus_le_l _ _ (inject_Z (Qfloor q))). rewrite C, Qplus_0_l. exact Hl.
  - apply (Qplus_lt_l _ _ (inject_Z (Qfloor q))). rewrite C.
    apply Qlt_le_trans with (inject_Z (Qfloor q) + inject_Z 1)%Q; [exact Hu |].
    apply Qle_lteq. right. ring.
Qed.

(** The position of tile [x] within its ancestor [k] levels up. *)
Lemma Qrem1_tile (x : Z) (k : nat) :
  0 <= x ->
  (Qrem1 (inject_Z x / pow2 k) == inject_Z (x mod 2 ^ Z.of_nat k) / pow2 k)%Q.
Proof.
  intros Hx. pose proof (pow2_pos k) as Hp.
  assert (0 < 2 ^ Z.of_nat k) as Hz by (apply Z.pow_pos_nonneg; lia).
  assert (0 <= inject_Z x / pow2 k)%Q as Hq.
  { apply Qle_shift_div_l; [exact Hp |]. rewrite Qmult_0_l.
    unfold Qle. simpl. lia. }
  destruct (Qrem1_nonneg _ Hq) as [E _]. rewrite E.
  unfold pow2 at 2. rewrite <- Zdiv_Qdiv. fold (pow2 k).
  rewrite (Z.div_mod x (2 ^ Z.of_nat k)) at 1 by lia.
  rewrite inject_Z_plus, inject_Z_mult. fold (pow2 k).
  field. intros E0. rewrite E0 in Hp. discriminate.
Qed.

Section FallbackResolver.

Context {Image : Type}.
Variable options : Options.t.
Variable getImage : GetImage Image.

(** One call of the resolver. *)
Lemma getFallbackTile_step fuel x y zoom scale (w : World Image) :
  getFallbackTile options (S fuel) getImage x y zoom scale w
  = if zoom =? 0 then (Ok None, w)
    else
      let src :=
        Options.source options (Qfloor (x / 2)) (Qfloor (y / 2)) (zoom - 1) in
      let w1 :=
        mkWorld (frameBuffer w) (bufferCtx w) (context w)
                (requests w ++ [Request.mk src cacheOnlyQuery]) in
      match getImage src cacheOnlyQuery with
      | Some image =>
          (Ok (Some (Fallback.mk image (scale * (1 # 2))%Q
                                 (Qrem1 (x / 2)) (Qrem1 (y / 2)))), w1)
      | None =>
          getFallbackTile options fuel getImage (x / 2)%Q (y / 2)%Q (zoom - 1)
                          (scale * (1 # 2))%Q w1
      end.
Proof.
  cbn [getFallbackTile]. destruct (zoom =? 0); [reflexivity |].
  unfold bind, query, cacheOnlyQuery. cbv zeta.
  destruct (getImage _ _); reflexivity.
Qed.

Lemma getFallbackTile_zoom_0_is_none fuel x y scale (w w' : World Image) f :
  getFallbackTile options fuel getImage x y 0 scale w <> (Ok (Some f), w').
Proof.
  destruct fuel; simpl; unfold outOfFuel, ret; discriminate.
Qed.

(** A result comes from the first cached ancestor, [k] levels up, and
    records the scale and the position of the tile within it. *)
Lemma getFallbackTile_found fuel :
  forall x y zoom scale (w w' : World Image) f,
    getFallbackTile options fuel getImage x y zoom scale w = (Ok (Some f), w') ->
    exists k : nat,
      (1 <= k)%nat
      /\ (0 < zoom -> Z.of_nat k <= zoom)
      /\ getImage (Options.source options (Qfloor (x / pow2 k))
                     (Qfloor (y / pow2 k)) (zoom - Z.of_nat k))
                  cacheOnlyQuery = Some (Fallback.image f)
      /\ (Fallback.scale f == scale / pow2 k)%Q
      /\ (Fallback.x f == Qrem1 (x / pow2 k))%Q
      /\ (Fallback.y f == Qrem1 (y / pow2 k))%Q.
Proof.
  induction fuel as [| fuel IH]; intros x y zoom scale w w' f H.
  - discriminate.
  - rewrite getFallbackTile_step in H.
    destruct (Z.eqb_spec zoom 0) as [-> | Hz]; [discriminate |].
    cbv zeta in H.
    destruct (getImage _ cacheOnlyQuery) as [img |] eqn:E.
    + inversion H; subst; clear H. exists 1%nat.
      change (pow2 1) with 2%Q.
      cbn [Fallback.image Fallback.scale Fallback.x Fallback.y].
      split; [lia |]. split; [lia |]. split; [exact E |].
      split; [field |]. split; reflexivity.
    + assert (zoom - 1 <> 0) as Hz1.
      { intros E0. rewrite E0 in H.
        exact (getFallbackTile_zoom_0_is_none _ _ _ _ _ _ _ H). }
      apply IH in H. destruct H as (k & Hk & Hle & Himg & Hs & Hx & Hy).
      exists (S k). split; [lia |]. split; [lia |]. split; [| split; [| split]].
      * rewrite <- Himg.
        rewrite <- (Qfloor_comp _ _ (halve_pow2 x k)).
        rewrite <- (Qfloor_comp _ _ (halve_pow2 y k)).
        f_equal. f_equal. lia.
      * rewrite Hs, pow2_S. pose proof (pow2_pos k) as Hp.
        field. intros E0. rewrite E0 in Hp. discriminate.
      * rewrite Hx. apply Qrem1_comp, halve_pow2.
      * rewrite Hy. apply Qrem1_comp, halve_pow2.
Qed.

(** The resolver only queries the cache: it leaves the buffer and both
    contexts alone, and every query it adds is restricted to the cache. *)
Lemma getFallbackTile_effects fuel :
  forall x y zoom scale (w : World Image),
    let w' := snd (getFallbackTile options fuel getImage x y zoom scale w) in
    frameBuffer w' = frameBuffer w
    /\ bufferCtx w' = bufferCtx w
    /\ context w' = context w
    /\ exists t,
         requests w' = requests w ++ t
         /\ Forall (fun r => GetImageOptions.cacheOnly (Request.opts r) = Some true) t.
Proof.
  induction fuel as [| fuel IH]; intros x y zoom scale w.
  - cbn. repeat split. exists []. rewrite app_nil_r. auto.
  - rewrite getFallbackTile_step. destruct (zoom =? 0).
    + cbn. repeat split. exists []. rewrite app_nil_r. auto.
    + cbv zeta. destruct (getImage _ _) as [img |].
      * cbn. repeat split. eexists. split; [reflexivity |].
        constructor; [reflexivity | constructor].
      * match goal with
        | |- context [getFallbackTile _ _ _ ?a ?b ?c ?d ?e] =>
            destruct (IH a b c d e) as (Hb & Hc & Hd & t & Ht & Hall)
        end.
        rewrite Hb, Hc, Hd, Ht. cbn.
        repeat split. eexists. rewrite <- app_assoc. split; [reflexivity |].
        constructor; [reflexivity | exact Hall].
Qed.

(** The answer of the resolver does not depend on what was recorded before. *)
Lemma getFallbackTile_answer fuel :
  forall x y zoom scale (w1 w2 : World Image),
    fst (getFallbackTile options fuel getImage x y zoom scale w1)
    = fst (getFallbackTile options fuel getImage x y zoom scale w2).
Proof.
  induction fuel as [| fuel IH]; intros x y zoom scale w1 w2.
  - reflexivity.
  - rewrite !getFallbackTile_step. destruct (zoom =? 0); [reflexivity |].
    cbv zeta. destruct (getImage _ _); [reflexivity | apply IH].
Qed.

(** From a zoom level that is not negative the walk ends at level 0
    within [zoom + 1] calls. *)
Lemma getFallbackTile_terminates fuel :
  forall x y zoom scale (w : World Image),
    0 <= zoom < Z.of_nat fuel ->
    exists r w', getFallbackTile options fuel getImage x y zoom scale w = (Ok r, w').
Proof.
  induction fuel as [| fuel IH]; intros x y zoom scale w Hz; [lia |].
  rewrite getFallbackTile_step. destruct (Z.eqb_spec zoom 0) as [-> | Hn].
  - eexists. eexists. reflexivity.
  - cbv zeta. destruct (getImage _ _).
    + eexists. eexists. reflexivity.
    + apply IH. lia.
Qed.

(** Below level 0 the walk never reaches level 0: with nothing cached it
    does not end, whatever depth it is allowed. *)
Lemma getFallbackTile_below_zero fuel :
  forall x y zoom scale (w : World Image),
    zoom < 0 ->
    (forall src opts, getImage src opts = None) ->
    fst (getFallbackTile options fuel getImage x y zoom scale w) = OutOfFuel.
Proof.
  induction fuel as [| fuel IH]; intros x y zoom scale w Hz Hmiss; [reflexivity |].
  rewrite getFallbackTile_step.
  destruct (Z.eqb_spec zoom 0) as [E | _]; [lia |].
  cbv zeta. rewrite Hmiss. apply IH; [lia | exact Hmiss].
Qed.

(** The resolver only answers none after it has walked down to level 0. *)
Lemma getFallbackTile_none_depth fuel :
  forall x y zoom scale (w : World Image),
    fst (getFallbackTile options fuel getImage x y zoom scale w) = Ok None ->
    0 <= zoom < Z.of_nat fuel.
Proof.
  induction fuel as [| fuel IH]; intros x y zoom scale w H; [discriminate |].
  rewrite getFallbackTile_step in H.
  destruct (Z.eqb_spec zoom 0) as [-> | Hn]; [lia |].
  cbv zeta in H. destruct (getImage _ _); [discriminate |].
  apply IH in H. lia.
Qed.

End FallbackResolver.

Lemma Qrem1_half_tile (x : Z) :
  (Qrem1 (inject_Z x / 2) == inject_Z (Z.rem x 2) / 2)%Q.
Proof.
  assert (Qtrunc (inject_Z x / 2) = Z.quot x 2) as E.
  { unfold Qtrunc. simpl. rewrite Z.mul_1_r. reflexivity. }
  unfold Qrem1. rewrite E.
  rewrite (Z.quot_rem' x 2) at 1.
  rewrite inject_Z_plus, inject_Z_mult. field.
Qed.

Lemma Qfloor_half_tile (x : Z) : Qfloor (inject_Z x / 2) = x / 2.
Proof. symmetry. exact (Zdiv_Qdiv x 2). Qed.

(** When the parent of a tile is cached, the resolver returns it at half
    scale; the offsets are the remainders of [x] and [y], halved.  The
    remainder is the one of [%], which is negative for a negative odd
    coordinate. *)
Lemma getFallbackTile_parent_hit {Image : Type} (options : Options.t)
    (getImage : GetImage Image) (fuel : nat) (x y zoom : Z) (img : Image)
    (w : World Image) :
  zoom <> 0 ->
  getImage (Options.source options (x / 2) (y / 2) (zoom - 1)) cacheOnlyQuery
  = Some img ->
  exists f w',
    getFallbackTile options (S fuel) getImage (inject_Z x) (inject_Z y) zoom 1 w
    = (Ok (Some f), w')
    /\ Fallback.image f = img
    /\ (Fallback.scale f == 1 # 2)%Q
    /\ (Fallback.x f == inject_Z (Z.rem x 2) / 2)%Q
    /\ (Fallback.y f == inject_Z (Z.rem y 2) / 2)%Q.
Proof.
  intros Hz Himg. rewrite getFallbackTile_step.
  destruct (Z.eqb_spec zoom 0) as [E | _]; [contradiction |].
  cbv zeta. rewrite !Qfloor_half_tile, Himg.
  eexists. eexists. split; [reflexivity |].
  cbn [Fallback.image Fallback.scale Fallback.x Fallback.y].
  split; [reflexivity |]. split; [reflexivity |].
  split; apply Qrem1_half_tile.
Qed.

(** For a tile whose coordinates are not negative the offsets locate its
    quadrant in the parent: [(x mod 2) / 2] and [(y mod 2) / 2]. *)
Lemma getFallbackTile_parent_hit_nonneg {Image : Type} (options : Options.t)
    (getImage : GetImage Image) (fuel : nat) (x y zoom : Z) (img : Image)
    (w : World Image) :
  0 <= x -> 0 <= y -> 0 < zoom ->
  getImage (Options.source options (x / 2) (y / 2) (zoom - 1)) cacheOnlyQuery
  = Some img ->
  exists f w',
    getFallbackTile options (S fuel) getImage (inject_Z x) (inject_Z y) zoom 1 w
    = (Ok (Some f), w')
    /\ Fallback.image f = img
    /\ (Fallback.scale f == 1 # 2)%Q
    /\ (Fallback.x f == inject_Z (x mod 2) / 2)%Q
    /\ (Fallback.y f == inject_Z (y mod 2) / 2)%Q.
Proof.
  intros Hx Hy Hz Himg.
  destruct (getFallbackTile_parent_hit options getImage fuel x y zoom img w)
    as (f & w' & E & Hi & Hs & Hfx & Hfy); [lia | exact Himg |].
  exists f, w'. rewrite <- (Z.rem_mod_nonneg x 2), <- (Z.rem_mod_nonneg y 2) by lia.
  auto.
Qed.

(** C2: evaluation at the tile [(-1, 0)] of zoom level 1 with its parent
    [(-1, 0)] of level 0 cached.  The resolver returns the parent at scale
    [0.5] with the offset [x = -0.5]; the quadrant of the tile within its
    parent is [((-1) mod 2) / 2 = 0.5]. *)
Theorem getFallbackTile_negative_tile :
  exists f w',
    getFallbackTile sampleOptions 1 fullCache (inject_Z (-1)) (inject_Z 0) 1 1
                    (emptyWorld (newFrameBuffer false))
    = (Ok (Some f), w')
    /\ Fallback.image f = sampleSource (-1) 0 0
    /\ (Fallback.scale f == 1 # 2)%Q
    /\ (Fallback.x f == - (1 # 2))%Q
    /\ (Fallback.y f == 0)%Q
    /\ ~ (Fallback.x f == inject_Z ((-1) mod 2) / 2)%Q
    /\ ~ (0 <= Fallback.x f)%Q.
Proof.
  eexists. eexists. split; [vm_compute; reflexivity |].
  cbn [Fallback.image Fallback.scale Fallback.x Fallback.y].
  split; [reflexivity |]. split; [reflexivity |].
  split; [reflexivity |]. split; [reflexivity |].
  split; intros H; vm_compute in H; [discriminate | apply H; reflexivity].
Qed.

(** C6: whatever its arguments and however deep it recurses, the fallback
    resolver draws nothing and resizes nothing, and each query it makes to
    the image cache carries [cacheOnly: true]. *)
Theorem getFallbackTile_cache_only {Image : Type} (options : Options.t)
    (getImage : GetImage Image) (fuel : nat) (x y : Q) (zoom : Z) (scale : Q)
    (w : World Image) :
  exists t,
    requests (snd (getFallbackTile options fuel getImage x y zoom scale w))
    = requests w ++ t
    /\ Forall (fun r => GetImageOptions.cacheOnly (Request.opts r) = Some true) t.
Proof.
  destruct (getFallbackTile_effects options getImage fuel x y zoom scale w)
    as (_ & _ & _ & H).
  exact H.
Qed.

(** C8: at zoom level 0 the resolver returns none, for every [x] and [y] and
    every image cache, without querying the cache. *)
Theorem getFallbackTile_zoom_0 {Image : Type} (options : Options.t)
    (getImage : GetImage Image) (fuel : nat) (x y scale : Q) (w : World Image) :
  getFallbackTile options (S fuel) getImage x y 0 scale w = (Ok None, w).
Proof. reflexivity. Qed.

(** C10: for a tile with coordinates that are not negative at a zoom level
    above 0, a result of the resolver comes from the first cached ancestor,
    [k >= 1] levels up; its scale is [2^-k], each offset is a multiple of
    [2^-k] in [[0, 1)], and offset plus scale is at most 1, so that the
    source rectangle drawn from the ancestor (corner [offset * tileSize],
    side [scale * tileSize]) lies within the ancestor's [tileSize] square. *)
Theorem getFallbackTile_within_ancestor {Image : Type} (options : Options.t)
    (getImage : GetImage Image) (fuel : nat) (x y zoom : Z)
    (w w' : World Image) (f : Fallback.t Image) :
  0 <= x -> 0 <= y -> 0 < zoom ->
  getFallbackTile options fuel getImage (inject_Z x) (inject_Z y) zoom 1 w
  = (Ok (Some f), w') ->
  exists k : nat,
    (1 <= k)%nat
    /\ Z.of_nat k <= zoom
    /\ getImage (Options.source options (x / 2 ^ Z.of_nat k) (y / 2 ^ Z.of_nat k)
                                (zoom - Z.of_nat k))
                cacheOnlyQuery = Some (Fallback.image f)
    /\ (Fallback.scale f == 1 / pow2 k)%Q
    /\ (Fallback.x f == inject_Z (x mod 2 ^ Z.of_nat k) * (1 / pow2 k))%Q
    /\ (Fallback.y f == inject_Z (y mod 2 ^ Z.of_nat k) * (1 / pow2 k))%Q
    /\ (0 <= Fallback.x f < 1)%Q
    /\ (0 <= Fallback.y f < 1)%Q
    /\ (Fallback.x f + Fallback.scale f <= 1)%Q
    /\ (Fallback.y f + Fallback.scale f <= 1)%Q
    /\ forall tileSize : positive,
         let s := inject_Z (Zpos tileSize) in
         (0 <= Fallback.x f * s)%Q
         /\ (Fallback.x f * s + Fallback.scale f * s <= s)%Q
         /\ (0 <= Fallback.y f * s)%Q
         /\ (Fallback.y f * s + Fallback.scale f * s <= s)%Q.
Proof.
  intros Hx Hy Hz H.
  destruct (getFallbackTile_found options getImage fuel _ _ _ _ _ _ _ H)
    as (k & Hk & Hle & Himg & Hs & Hfx & Hfy).
  pose proof (pow2_pos k) as Hp.
  assert (~ pow2 k == 0)%Q as Hp0 by (intros E; rewrite E in Hp; discriminate).
  assert (0 < 2 ^ Z.of_nat k) as Hpz by (apply Z.pow_pos_nonneg; lia).
  rewrite (Qrem1_tile x k Hx) in Hfx. rewrite (Qrem1_tile y k Hy) in Hfy.
  unfold pow2 in Himg at 1 2. rewrite <- !Zdiv_Qdiv in Himg.
  pose proof (Z.mod_pos_bound x _ Hpz) as Bx.
  pose proof (Z.mod_pos_bound y _ Hpz) as By.
  set (mx := x mod 2 ^ Z.of_nat k) in *.
  set (my := y mod 2 ^ Z.of_nat k) in *.
  assert (forall m, 0 <= m < 2 ^ Z.of_nat k ->
            (0 <= inject_Z m / pow2 k)%Q
            /\ (inject_Z m / pow2 k + 1 / pow2 k <= 1)%Q) as Hbound.
  { intros m Hm. split.
    - apply Qle_shift_div_l; [exact Hp |]. rewrite Qmult_0_l.
      unfold Qle. simpl. lia.
    - assert (inject_Z m / pow2 k + 1 / pow2 k == inject_Z (m + 1) / pow2 k)%Q as E.
      { rewrite inject_Z_plus. field. exact Hp0. }
      rewrite E. apply Qle_shift_div_r; [exact Hp |]. rewrite Qmult_1_l.
      unfold pow2. rewrite <- Zle_Qle. lia. }
  destruct (Hbound mx Bx) as [Hx0 Hx1]. destruct (Hbound my By) as [Hy0 Hy1].
  assert (0 < 1 / pow2 k)%Q as Hinv.
  { apply Qlt_shift_div_l; [exact Hp |]. rewrite Qmult_0_l. reflexivity. }
  subst mx my.
  exists k. split; [exact Hk |]. split; [apply Hle; exact Hz |].
  split; [exact Himg |].
  split; [rewrite Hs; reflexivity |].
  split; [rewrite Hfx; unfold Qdiv; ring |].
  split; [rewrite Hfy; unfold Qdiv; ring |].
  assert (forall a b u : Q,
            (a == b)%Q -> (0 <= b)%Q -> (0 < u)%Q -> (b + u <= 1)%Q ->
            (0 <= a < 1)%Q) as Hin by (intros a b u E ? ? ?; rewrite E; split; lra).
  assert (forall a b u v : Q,
            (a == b)%Q -> (v == u)%Q -> (b + u <= 1)%Q -> (a + v <= 1)%Q) as Hsum
    by (intros a b u v E E' ?; rewrite E, E'; assumption).
  split; [exact (Hin _ _ _ Hfx Hx0 Hinv Hx1) |].
  split; [exact (Hin _ _ _ Hfy Hy0 Hinv Hy1) |].
  split; [exact (Hsum _ _ _ _ Hfx Hs Hx1) |].
  split; [exact (Hsum _ _ _ _ Hfy Hs Hy1) |].
  intros tileSize s.
  assert (0 < s)%Q as Hsp by reflexivity.
  pose proof (Hin _ _ _ Hfx Hx0 Hinv Hx1) as [Ax _].
  pose proof (Hin _ _ _ Hfy Hy0 Hinv Hy1) as [Ay _].
  pose proof (Hsum _ _ _ _ Hfx Hs Hx1) as Sx.
  pose proof (Hsum _ _ _ _ Hfy Hs Hy1) as Sy.
  clearbody s.
  generalize dependent (Fallback.x f). generalize dependent (Fallback.y f).
  generalize dependent (Fallback.scale f).
  intros. repeat split; nra.
Qed.

Lemma getFallbackTile_within_ancestor_witness :
  exists f w',
    getFallbackTile sampleOptions 3 rootCache (inject_Z 3) (inject_Z 1) 2 1
                    (emptyWorld (newFrameBuffer false))
    = (Ok (Some f), w')
    /\ Fallback.image f = sampleSource 0 0 0
    /\ (Fallback.x f == 3 # 4)%Q
    /\ (Fallback.x f + Fallback.scale f <= 1)%Q
    /\ (Fallback.y f + Fallback.scale f <= 1)%Q.
Proof.
  eexists. eexists. split; [vm_compute; reflexivity |].
  split; [reflexivity |]. split; [reflexivity |].
  edestruct (@getFallbackTile_within_ancestor string sampleOptions rootCache
               3 3 1 2 (emptyWorld (newFrameBuffer false)))
    as (k & _ & _ & _ & _ & _ & _ & _ & _ & Hx & Hy & _).
  - lia.
  - lia.
  - lia.
  - vm_compute. reflexivity.
  - split; [exact Hx | exact Hy].
Defined.

(** ** Effects of the passes *)

Section Effects.

Context {Image : Type}.

Lemma steady_refl (w : World Image) : steady w w.
Proof.
  unfold steady. repeat split; exists []; rewrite app_nil_r; reflexivity.
Qed.

Lemma steady_trans (w1 w2 w3 : World Image) :
  steady w1 w2 -> steady w2 w3 -> steady w1 w3.
Proof.
  intros (Hf & (b & Hb) & (c & Hc) & (r & Hr)) (Hf' & (b' & Hb') & (c' & Hc') & (r' & Hr')).
  unfold steady. rewrite Hf', Hf, Hb', Hb, Hc', Hc, Hr', Hr.
  split; [reflexivity |].
  split; [exists (b ++ b') | split; [exists (c ++ c') | exists (r ++ r')]];
    rewrite app_assoc; reflexivity.
Qed.

Lemma draws_ret {A : Type} (a : A) : draws (Image := Image) (ret a).
Proof. intros w. apply steady_refl. Qed.

Lemma draws_throw {A : Type} (e : string) : draws (Image := Image) (A := A) (throw e).
Proof. intros w. apply steady_refl. Qed.

Lemma draws_outOfFuel {A : Type} : draws (Image := Image) (A := A) outOfFuel.
Proof. intros w. apply steady_refl. Qed.

Lemma draws_bind {A B : Type} (m : M Image A) (k : A -> M Image B) :
  draws m -> (forall a, draws (k a)) -> draws (bind m k).
Proof.
  intros Hm Hk w. unfold bind. specialize (Hm w).
  destruct (m w) as [[a | e |] w1]; cbn [snd] in *.
  - apply steady_trans with w1; [exact Hm | apply Hk].
  - exact Hm.
  - exact Hm.
Qed.

Lemma draws_when (b : bool) (m : M Image unit) : draws m -> draws (when b m).
Proof. destruct b; [auto | intros _; apply draws_ret]. Qed.

Lemma draws_forEach {A : Type} (l : list A) (body : A -> M Image unit) :
  (forall a, draws (body a)) -> draws (forEach l body).
Proof.
  intros H. induction l as [| a l IH]; cbn [forEach].
  - apply draws_ret.
  - apply draws_bind; [apply H | intros _; exact IH].
Qed.

Lemma draws_onBuffer (c : Cmd Q Image) : draws (onBuffer c).
Proof.
  intros w. unfold steady. cbn.
  split; [reflexivity |]. split; [exists [c]; reflexivity |].
  split; exists []; rewrite app_nil_r; reflexivity.
Qed.

Lemma draws_onContext (c : Cmd R BufferImage) : draws (Image := Image) (onContext c).
Proof.
  intros w. unfold steady. cbn.
  split; [reflexivity |]. split; [exists []; rewrite app_nil_r; reflexivity |].
  split; [exists [c]; reflexivity | exists []; rewrite app_nil_r; reflexivity].
Qed.

Lemma draws_query (getImage : GetImage Image) src opts : draws (query getImage src opts).
Proof.
  intros w. unfold steady. cbn.
  split; [reflexivity |]. split; [exists []; rewrite app_nil_r; reflexivity |].
  split; [exists []; rewrite app_nil_r; reflexivity | eexists; reflexivity].
Qed.

Lemma draws_getBuffer : draws (Image := Image) getBuffer.
Proof. intros w. apply steady_refl. Qed.

Lemma draws_getFallbackTile options fuel (getImage : GetImage Image) x y zoom scale :
  draws (getFallbackTile options fuel getImage x y zoom scale).
Proof.
  intros w.
  destruct (getFallbackTile_effects options getImage fuel x y zoom scale w)
    as (Hf & Hb & Hc & t & Ht & _).
  unfold steady. rewrite Hf, Hb, Hc, Ht.
  split; [reflexivity |]. split; [exists []; rewrite app_nil_r; reflexivity |].
  split; [exists []; rewrite app_nil_r; reflexivity | exists t; reflexivity].
Qed.

Lemma completes_ret {A : Type} (a : A) : completes (Image := Image) (ret a).
Proof. intros w. exists a. reflexivity. Qed.

Lemma completes_bind {A B : Type} (m : M Image A) (k : A -> M Image B) :
  completes m -> (forall a, completes (k a)) -> completes (bind m k).
Proof.
  intros Hm Hk w. unfold bind. destruct (Hm w) as [a Ha].
  destruct (m w) as [o w1]. cbn [fst] in Ha. subst o. apply Hk.
Qed.

Lemma completes_when (b : bool) (m : M Image unit) : completes m -> completes (when b m).
Proof. destruct b; [auto | intros _; apply completes_ret]. Qed.

Lemma completes_forEach {A : Type} (l : list A) (body : A -> M Image unit) :
  (forall a, In a l -> completes (body a)) -> completes (forEach l body).
Proof.
  induction l as [| a l IH]; intros H; cbn [forEach].
  - apply completes_ret.
  - apply completes_bind; [apply H; left; reflexivity |].
    intros _. apply IH. intros b Hb. apply H. right. exact Hb.
Qed.

Lemma completes_onBuffer (c : Cmd Q Image) : completes (onBuffer c).
Proof. intros w. exists tt. reflexivity. Qed.

Lemma completes_onContext (c : Cmd R BufferImage) : completes (Image := Image) (onContext c).
Proof. intros w. exists tt. reflexivity. Qed.

Lemma completes_query (getImage : GetImage Image) src opts :
  completes (query getImage src opts).
Proof. intros w. eexists. reflexivity. Qed.

Lemma completes_getBuffer : completes (Image := Image) getBuffer.
Proof. intros w. eexists. reflexivity. Qed.

(** A computation on [unit] that completes returns [tt] in a steady world. *)
Lemma run_unit (m : M Image unit) (w : World Image) :
  draws m -> completes m -> exists w', m w = (Ok tt, w') /\ steady w w'.
Proof.
  intros Hd Hc. specialize (Hd w). destruct (Hc w) as [[] Ha].
  destruct (m w) as [o w']. cbn [fst snd] in *. subst o.
  exists w'. split; [reflexivity | exact Hd].
Qed.

(** The loop over a list, seen from one of its elements: what comes before
    and after only adds to the records. *)
Lemma forEach_focus {A : Type} (l : list A) (body : A -> M Image unit) (a : A)
    (w : World Image) :
  (forall b, draws (body b)) -> (forall b, In b l -> completes (body b)) ->
  In a l ->
  exists w1 w2 w',
    steady w w1
    /\ body a w1 = (Ok tt, w2)
    /\ steady w2 w'
    /\ forEach l body w = (Ok tt, w').
Proof.
  intros Hd Hc. revert w. induction l as [| b l IH]; intros w Hin; [destruct Hin |].
  cbn [forEach]. unfold bind.
  destruct (run_unit (body b) w (Hd b) (Hc b (or_introl eq_refl))) as (wb & Eb & Sb).
  rewrite Eb.
  assert (forall b0, In b0 l -> completes (body b0)) as Hc'
    by (intros b0 H0; apply Hc; right; exact H0).
  destruct Hin as [-> | Hin].
  - destruct (run_unit (forEach l body) wb (draws_forEach l body Hd)
                (completes_forEach l body Hc')) as (w' & E' & S').
    exists w, wb, w'. split; [apply steady_refl |]. auto.
  - destruct (IH Hc' wb Hin) as (w1 & w2 & w' & S1 & E & S2 & E').
    exists w1, w2, w'. split; [apply steady_trans with wb; assumption |]. auto.
Qed.

Lemma In_Zrange (lo hi z : Z) : In z (Zrange lo hi) <-> lo <= z <= hi.
Proof.
  unfold Zrange. rewrite in_map_iff. split.
  - intros (k & <- & Hk). apply in_seq in Hk. lia.
  - intros H. exists (Z.to_nat (z - lo)). split; [lia |].
    apply in_seq. lia.
Qed.

End Effects.

(** ** The render pass *)

Ltac draws_step :=
  first
    [ apply draws_ret | apply draws_onBuffer | apply draws_onContext
    | apply draws_query | apply draws_getBuffer | apply draws_getFallbackTile
    | apply draws_when | apply draws_forEach; intros ?
    | apply draws_bind; [| intros ?]
    | match goal with |- draws (match ?o with _ => _ end) => destruct o end ].

Ltac completes_step :=
  first
    [ apply completes_ret | apply completes_onBuffer | apply completes_onContext
    | apply completes_query | apply completes_getBuffer
    | apply completes_when
    | apply completes_bind; [| intros ?]
    | match goal with |- completes (match ?o with _ => _ end) => destruct o end ].

Section RenderPass.

Context {Image : Type}.
Variable options : Options.t.

Lemma draws_drawTile fuel (c : RenderContext Image) t x y :
  draws (drawTile options fuel c t x y).
Proof. unfold drawTile. repeat draws_step. Qed.

Lemma draws_renderDebugGrid x y zoom width height :
  draws (Image := Image) (renderDebugGrid x y zoom width height).
Proof. unfold renderDebugGrid. repeat draws_step. Qed.

Lemma draws_clearBuffer (c : RenderContext Image) : draws (clearBuffer c).
Proof. unfold clearBuffer. repeat draws_step. Qed.

Lemma draws_drawTiles fuel (c : RenderContext Image) t :
  draws (drawTiles options fuel c t).
Proof. unfold drawTiles. repeat draws_step. Qed.

Lemma draws_blitToSurface t : draws (Image := Image) (blitToSurface t).
Proof. unfold blitToSurface. repeat draws_step. Qed.

Lemma draws_drawDebugOverlay (c : RenderContext Image) t : draws (drawDebugOverlay c t).
Proof. unfold drawDebugOverlay. repeat draws_step. Qed.

Lemma draws_paintTiles fuel (c : RenderContext Image) t :
  draws (paintTiles options fuel c t).
Proof.
  unfold paintTiles.
  apply draws_bind; [apply draws_clearBuffer | intros _].
  apply draws_bind; [apply draws_drawTiles | intros _].
  apply draws_bind; [apply draws_blitToSurface | intros _].
  apply draws_drawDebugOverlay.
Qed.

Lemma completes_renderDebugGrid x y zoom width height :
  completes (Image := Image) (renderDebugGrid x y zoom width height).
Proof. unfold renderDebugGrid. repeat completes_step. Qed.

Lemma completes_clearBuffer (c : RenderContext Image) : completes (clearBuffer c).
Proof. unfold clearBuffer. repeat completes_step. Qed.

Lemma completes_blitToSurface t : completes (Image := Image) (blitToSurface t).
Proof. unfold blitToSurface. repeat completes_step. Qed.

Lemma completes_drawDebugOverlay (c : RenderContext Image) t :
  completes (drawDebugOverlay c t).
Proof.
  unfold drawDebugOverlay. repeat completes_step.
  apply completes_forEach. intros x _. apply completes_forEach. intros y _.
  apply completes_renderDebugGrid.
Qed.

(** With every tile in the cache no fallback is looked for. *)
Lemma completes_drawTile_cached fuel (c : RenderContext Image) t x y :
  (forall src opts, getImage c src opts <> None) ->
  completes (drawTile options fuel c t x y).
Proof.
  intros Hfull w. unfold drawTile, bind at 1, query at 1.
  destruct (getImage c _ _) as [tile |] eqn:E; [| apply Hfull in E; contradiction].
  eexists. reflexivity.
Qed.

(** At a zoom level that is not negative, a recursion depth above the level
    is enough for every tile. *)
Lemma completes_drawTile_depth fuel (c : RenderContext Image) t x y :
  0 <= Tiles.zoom t < Z.of_nat fuel ->
  completes (drawTile options fuel c t x y).
Proof.
  intros Hz. unfold drawTile.
  apply completes_bind; [apply completes_query | intros [tile |]].
  - repeat completes_step.
  - apply completes_bind.
    + intros w.
      destruct (getFallbackTile_terminates options (getImage c) fuel
                  (inject_Z x) (inject_Z y) (Tiles.zoom t) 1 w Hz) as (r & w' & E).
      exists r. rewrite E. reflexivity.
    + intros fallback. repeat completes_step.
Qed.

Lemma completes_drawTiles fuel (c : RenderContext Image) t :
  (forall x y, completes (drawTile options fuel c t x y)) ->
  completes (drawTiles options fuel c t).
Proof.
  intros H. unfold drawTiles.
  apply completes_forEach. intros x _. apply completes_forEach. intros y _. apply H.
Qed.

Lemma completes_paintTiles fuel (c : RenderContext Image) t :
  (forall x y, completes (drawTile options fuel c t x y)) ->
  completes (paintTiles options fuel c t).
Proof.
  intros H. unfold paintTiles.
  apply completes_bind; [apply completes_clearBuffer | intros _].
  apply completes_bind; [apply completes_drawTiles; exact H | intros _].
  apply completes_bind; [apply completes_blitToSurface | intros _].
  apply completes_drawDebugOverlay.
Qed.

(** A pass that fails the size check of [getTiles] changes nothing. *)
Lemma render_throws fuel (c : RenderContext Image) (w : World Image) message :
  getTiles options (project c) (state c) = inl message ->
  render options fuel c w = (Throw message, w).
Proof. intros H. unfold render. rewrite H. reflexivity. Qed.

(** The resize step: the buffer gets its new size and nothing is recorded. *)
Lemma ensureBuffer_run t (w : World Image) :
  ensureBuffer t w
  = (Ok tt, mkWorld (ensured (frameBuffer w) t) (bufferCtx w) (context w) (requests w)).
Proof.
  unfold ensureBuffer, ensured, bind, getBuffer.
  destruct (mustResize _ _ _); [reflexivity |].
  destruct w. reflexivity.
Qed.

Lemma renderTiles_run fuel (c : RenderContext Image) t (w : World Image) :
  renderTiles options fuel c t w
  = paintTiles options fuel c t
      (mkWorld (ensured (frameBuffer w) t) (bufferCtx w) (context w) (requests w)).
Proof.
  unfold renderTiles, bind. rewrite ensureBuffer_run. reflexivity.
Qed.

Lemma renderTiles_buffer fuel (c : RenderContext Image) t (w : World Image) :
  frameBuffer (snd (renderTiles options fuel c t w)) = ensured (frameBuffer w) t.
Proof.
  rewrite renderTiles_run.
  destruct (draws_paintTiles fuel c t
              (mkWorld (ensured (frameBuffer w) t) (bufferCtx w) (context w)
                       (requests w))) as [H _].
  exact H.
Qed.

Lemma mustResize_iff (buffer : Canvas.t) (bufferWidth bufferHeight : Z) :
  mustResize buffer bufferWidth bufferHeight = true
  <-> (Canvas.width buffer < bufferWidth
       \/ Canvas.height buffer < bufferHeight
       \/ Canvas.width buffer > bufferWidth * 4
       \/ Canvas.height buffer > bufferHeight * 4).
Proof.
  unfold mustResize. rewrite !orb_true_iff, !Z.ltb_lt, !Z.gtb_gt. tauto.
Qed.

(** Resizing settles: the size a pass leaves is left alone by the next pass
    over the same grid. *)
Lemma ensured_idempotent (buffer : Canvas.t) t :
  ensured (ensured buffer t) t = ensured buffer t.
Proof.
  unfold ensured.
  destruct (mustResize buffer _ _) eqn:E.
  - clear E. destruct (mustResize _ _ _); reflexivity.
  - rewrite E. reflexivity.
Qed.

End RenderPass.

(** The sample view is covered by the three by three tiles of level 1. *)
Lemma getTiles_sample :
  getTiles sampleOptions identityProjection sampleState = inr sampleTiles.
Proof.
  unfold getTiles.
  assert (renderedTileSizeOf sampleOptions (State.zoom sampleState) = 256%R) as Er.
  { unfold renderedTileSizeOf. simpl State.zoom.
    destruct (Req_dec_T _ _) as [_ | N]; [reflexivity |].
    exfalso. apply N. apply (Rrem1_IZR 1). }
  rewrite Er. change (IZR (Zpos (tileSizeOf sampleOptions))) with 256%R.
  destruct (Rlt_dec 256 (256 / 2)) as [L | _]; [lra |].
  cbn [sampleOptions sampleState identityProjection Options.bounds
       State.zoom State.center State.width State.height fst snd].
  repeat match goal with
         | |- context [Zfloor ?e] =>
             first
               [ rewrite (Zfloor_eq 0 e)
                   by (unfold Rmax, Rmin; repeat destruct (Rle_dec _ _); lra)
               | rewrite (Zfloor_eq 2 e)
                   by (unfold Rmax, Rmin; repeat destruct (Rle_dec _ _); lra) ]
         end.
  rewrite (Zceil_eq 1) by lra.
  reflexivity.
Qed.

(** The size of the buffer after a render pass that reaches it, with the
    required size as [render] computes it, [(tileBottomRight - tileTopLeft
    + 1) * tileSize] in each dimension: the buffer is resized exactly when
    its width or height is smaller than the required size or larger than
    four times the required size; a resize sets both dimensions to twice
    the required ones, and otherwise both are left as they were. *)
Theorem render_buffer_size {Image : Type} (options : Options.t) (fuel : nat)
    (c : RenderContext Image) (t : Tiles.t) (w : World Image) :
  getTiles options (project c) (state c) = inr t ->
  let requiredWidth :=
    (fst (Tiles.tileBottomRight t) - fst (Tiles.tileTopLeft t) + 1)
    * Zpos (Tiles.tileSize t) in
  let requiredHeight :=
    (snd (Tiles.tileBottomRight t) - snd (Tiles.tileTopLeft t) + 1)
    * Zpos (Tiles.tileSize t) in
  let buffer := frameBuffer w in
  let buffer' := frameBuffer (snd (render options fuel c w)) in
  let outOfBand :=
    Canvas.width buffer < requiredWidth
    \/ Canvas.height buffer < requiredHeight
    \/ Canvas.width buffer > requiredWidth * 4
    \/ Canvas.height buffer > requiredHeight * 4 in
  (outOfBand -> buffer' = Canvas.mk (requiredWidth * 2) (requiredHeight * 2))
  /\ (~ outOfBand -> buffer' = buffer).
Proof.
  intros Ht. cbv zeta. unfold render. rewrite Ht, renderTiles_buffer.
  unfold ensured.
  fold (bufferWidthOf t). fold (bufferHeightOf t).
  destruct (mustResize (frameBuffer w) (bufferWidthOf t) (bufferHeightOf t)) eqn:E.
  - split; [reflexivity |]. intros N. exfalso. apply N.
    apply mustResize_iff. exact E.
  - split; [| reflexivity]. intros H. apply mustResize_iff in H. congruence.
Qed.

Lemma render_buffer_size_witness :
  frameBuffer (snd (render sampleOptions 0 (sampleContext fullCache)
                           (emptyWorld (newFrameBuffer false))))
  = Canvas.mk 1536 1536
  /\ frameBuffer (snd (render sampleOptions 0 (sampleContext fullCache)
                              (emptyWorld (Canvas.mk 3072 800))))
     = Canvas.mk 3072 800.
Proof.
  split.
  - apply (proj1 (render_buffer_size sampleOptions 0 (sampleContext fullCache)
                    sampleTiles (emptyWorld (newFrameBuffer false))
                    getTiles_sample)).
    left. reflexivity.
  - apply (proj2 (render_buffer_size sampleOptions 0 (sampleContext fullCache)
                    sampleTiles (emptyWorld (Canvas.mk 3072 800))
                    getTiles_sample)).
    cbn. lia.
Defined.

Lemma bind_run {Image A B : Type} (m : M Image A) (k : A -> M Image B)
    (w w1 : World Image) (a : A) :
  m w = (Ok a, w1) -> bind m k w = k a w1.
Proof. intros E. unfold bind. rewrite E. reflexivity. Qed.

(** A tile that is neither cached nor has a cached ancestor: its footprint
    is cleared, and tinted when [state.debug] is set; nothing else is drawn. *)
Lemma drawTile_exhausted {Image : Type} (options : Options.t) (fuel : nat)
    (c : RenderContext Image) (t : Tiles.t) (x y : Z) (w : World Image) :
  getImage c (Options.source options x y (Tiles.zoom t))
             (GetImageOptions.mk (Some (renderPriority t x y))
                                 (Some (String.eqb (reason c) "ease")) None)
  = None ->
  fst (getFallbackTile options fuel (getImage c) (inject_Z x) (inject_Z y)
                       (Tiles.zoom t) 1 w) = Ok None ->
  let tileSize := inject_Z (Zpos (Tiles.tileSize t)) in
  let dx := inject_Z ((x - fst (Tiles.tileTopLeft t)) * Zpos (Tiles.tileSize t)) in
  let dy := inject_Z ((y - snd (Tiles.tileTopLeft t)) * Zpos (Tiles.tileSize t)) in
  exists w',
    drawTile options fuel c t x y w = (Ok tt, w')
    /\ bufferCtx w'
       = bufferCtx w
         ++ ClearRect dx dy tileSize tileSize
            :: (if State.debug (state c)
                then [SetFillStyle "#220000"; FillRect dx dy tileSize tileSize]
                else []).
Proof.
  intros Hmiss Hnone. cbv zeta. unfold drawTile.
  unfold bind at 1, query at 1. rewrite Hmiss. cbv beta iota.
  unfold bind at 1.
  match goal with
  | |- context [getFallbackTile _ _ _ _ _ _ _ ?wq] =>
      rewrite (getFallbackTile_answer options (getImage c) fuel _ _ _ _ w wq) in Hnone;
      destruct (getFallbackTile_effects options (getImage c) fuel (inject_Z x)
                  (inject_Z y) (Tiles.zoom t) 1 wq) as (_ & Hb & _);
      destruct (getFallbackTile options fuel (getImage c) (inject_Z x) (inject_Z y)
                  (Tiles.zoom t) 1 wq) as [o wf]
  end.
  cbn [fst snd bufferCtx] in Hnone, Hb. subst o.
  destruct (State.debug (state c)); cbn; rewrite Hb; eexists; split; try reflexivity;
    cbn; rewrite <- ?app_assoc; reflexivity.
Qed.

(** C7: when a cell of the grid misses the cache and the fallback resolver
    returns none, the render pass ends normally and, among the calls it
    makes on the buffer, clears the [tileSize] by [tileSize] footprint of
    that cell (and tints it when [state.debug] is set) instead of drawing
    an image there. *)
Theorem render_clears_exhausted_tile {Image : Type} (options : Options.t)
    (fuel : nat) (c : RenderContext Image) (t : Tiles.t) (x y : Z)
    (w : World Image) :
  getTiles options (project c) (state c) = inr t ->
  fst (Tiles.tileTopLeft t) <= x <= fst (Tiles.tileBottomRight t) ->
  snd (Tiles.tileTopLeft t) <= y <= snd (Tiles.tileBottomRight t) ->
  getImage c (Options.source options x y (Tiles.zoom t))
             (GetImageOptions.mk (Some (renderPriority t x y))
                                 (Some (String.eqb (reason c) "ease")) None)
  = None ->
  fst (getFallbackTile options fuel (getImage c) (inject_Z x) (inject_Z y)
                       (Tiles.zoom t) 1 w) = Ok None ->
  let tileSize := inject_Z (Zpos (Tiles.tileSize t)) in
  let dx := inject_Z ((x - fst (Tiles.tileTopLeft t)) * Zpos (Tiles.tileSize t)) in
  let dy := inject_Z ((y - snd (Tiles.tileTopLeft t)) * Zpos (Tiles.tileSize t)) in
  exists w' before after,
    render options fuel c w = (Ok tt, w')
    /\ bufferCtx w'
       = bufferCtx w ++ before
         ++ (ClearRect dx dy tileSize tileSize
             :: (if State.debug (state c)
                 then [SetFillStyle "#220000"; FillRect dx dy tileSize tileSize]
                 else []))
         ++ after.
Proof.
  intros Ht Hx Hy Hmiss Hnone. cbv zeta.
  pose proof (getFallbackTile_none_depth _ _ _ _ _ _ _ _ Hnone) as Hdepth.
  assert (forall x' y', completes (drawTile options fuel c t x' y')) as Hc
    by (intros; apply completes_drawTile_depth; exact Hdepth).
  unfold render. rewrite Ht, renderTiles_run.
  set (w0 := mkWorld _ (bufferCtx w) _ _).
  unfold paintTiles.
  destruct (run_unit (clearBuffer c) w0 (draws_clearBuffer c) (completes_clearBuffer c))
    as (w1 & E1 & S1).
  rewrite (bind_run _ _ _ _ _ E1).
  destruct (forEach_focus
              (Zrange (fst (Tiles.tileTopLeft t)) (fst (Tiles.tileBottomRight t)))
              (fun x' =>
                 forEach (Zrange (snd (Tiles.tileTopLeft t))
                                 (snd (Tiles.tileBottomRight t)))
                         (fun y' => drawTile options fuel c t x' y'))
              x w1)
    as (wa & wb & w2 & Sa & Ex & Sb & E2).
  { intros x'. apply draws_forEach. intros y'. apply draws_drawTile. }
  { intros x' _. apply completes_forEach. intros y' _. apply Hc. }
  { apply In_Zrange. exact Hx. }
  destruct (forEach_focus
              (Zrange (snd (Tiles.tileTopLeft t)) (snd (Tiles.tileBottomRight t)))
              (fun y' => drawTile options fuel c t x y')
              y wa)
    as (wc & wd & wb' & Sc & Ey & Sd & Ex').
  { intros y'. apply draws_drawTile. }
  { intros y' _. apply Hc. }
  { apply In_Zrange. exact Hy. }
  rewrite Ex in Ex'. inversion Ex'; subst wb'; clear Ex'.
  rewrite (getFallbackTile_answer options (getImage c) fuel _ _ _ _ w wc) in Hnone.
  destruct (drawTile_exhausted options fuel c t x y wc Hmiss Hnone) as (wd' & Ed & Hcell).
  rewrite Ey in Ed. inversion Ed; subst wd'; clear Ed.
  change (forEach _ _ w1) with (drawTiles options fuel c t w1) in E2.
  rewrite (bind_run _ _ _ _ _ E2).
  destruct (run_unit (bind (blitToSurface t) (fun _ => drawDebugOverlay c t)) w2)
    as (w3 & E3 & S3).
  { apply draws_bind; [apply draws_blitToSurface | intros _; apply draws_drawDebugOverlay]. }
  { apply completes_bind;
      [apply completes_blitToSurface | intros _; apply completes_drawDebugOverlay]. }
  rewrite E3.
  destruct S1 as (_ & (c1 & H1) & _). destruct Sa as (_ & (ca & Ha) & _).
  destruct Sc as (_ & (cc & Hcc) & _). destruct Sd as (_ & (cd & Hd) & _).
  destruct Sb as (_ & (cb & Hb) & _). destruct S3 as (_ & (c3 & H3) & _).
  exists w3, (c1 ++ ca ++ cc), (cd ++ cb ++ c3). split; [reflexivity |].
  rewrite H3, Hb, Hd, Hcell, Hcc, Ha, H1. subst w0. cbn [bufferCtx].
  rewrite <- !app_assoc. reflexivity.
Qed.

Lemma render_clears_exhausted_tile_witness :
  exists w' before after,
    render sampleOptions 2 (sampleContext emptyCache)
           (emptyWorld (newFrameBuffer false)) = (Ok tt, w')
    /\ bufferCtx w' = [] ++ before ++ [ClearRect 512%Q 256%Q 256%Q 256%Q] ++ after.
Proof.
  apply (render_clears_exhausted_tile sampleOptions 2 (sampleContext emptyCache)
           sampleTiles 2 1 (emptyWorld (newFrameBuffer false)) getTiles_sample).
  - cbn. lia.
  - cbn. lia.
  - reflexivity.
  - reflexivity.
Defined.

(** Two render passes in sequence, with the same view state, the same
    projection and a cache that holds every tile, end the same way, leave
    the buffer at the same size, and make the same calls on the buffer and
    on the destination.  Each pass that reaches the buffer ends normally and
    repaints the whole buffer before it draws the tiles. *)
Theorem render_twice {Image : Type} (options : Options.t) (fuel : nat)
    (c : RenderContext Image) (buffer : Canvas.t) :
  (forall src opts, getImage c src opts <> None) ->
  let first := render options fuel c (mkWorld buffer [] [] []) in
  let second := render options fuel c (mkWorld (frameBuffer (snd first)) [] [] []) in
  fst second = fst first
  /\ frameBuffer (snd second) = frameBuffer (snd first)
  /\ bufferCtx (snd second) = bufferCtx (snd first)
  /\ context (snd second) = context (snd first)
  /\ requests (snd second) = requests (snd first)
  /\ (forall t, getTiles options (project c) (state c) = inr t ->
        fst first = Ok tt
        /\ exists tiles,
             bufferCtx (snd first)
             = SetFillStyle (match backgroundColor c with
                             | Some color => color
                             | None => "#000"
                             end)
               :: FillRect 0%Q 0%Q
                    (inject_Z (Canvas.width (frameBuffer (snd first))))
                    (inject_Z (Canvas.height (frameBuffer (snd first))))
               :: tiles).
Proof.
  intros Hfull. cbv zeta. unfold render.
  destruct (getTiles options (project c) (state c)) as [e | t] eqn:Ht.
  - cbn. repeat (split; [reflexivity |]). intros t' Hc. discriminate.
  - rewrite (renderTiles_run options fuel c t (mkWorld buffer [] [] [])).
    cbn [frameBuffer bufferCtx context requests].
    pose proof (draws_paintTiles options fuel c t
                  (mkWorld (ensured buffer t) [] [] [])) as (Hf & _).
    cbn [frameBuffer] in Hf.
    rewrite renderTiles_run. cbn [frameBuffer bufferCtx context requests].
    rewrite Hf, ensured_idempotent.
    repeat (split; [first [reflexivity | exact Hf] |]).
    intros t' Ht'. inversion Ht'; subst t'; clear Ht'. split.
    + destruct (completes_paintTiles options fuel c t
                  (fun x y => completes_drawTile_cached options fuel c t x y Hfull)
                  (mkWorld (ensured buffer t) [] [] [])) as ([] & Hok).
      exact Hok.
    + unfold paintTiles.
      assert (clearBuffer c (mkWorld (ensured buffer t) [] [] [])
              = (Ok tt,
                 mkWorld (ensured buffer t)
                   [SetFillStyle (match backgroundColor c with
                                  | Some color => color
                                  | None => "#000"
                                  end);
                    FillRect 0%Q 0%Q (inject_Z (Canvas.width (ensured buffer t)))
                             (inject_Z (Canvas.height (ensured buffer t)))]
                   [] [])) as Ec by reflexivity.
      rewrite (bind_run _ _ _ _ _ Ec).
      match goal with
      | |- context [bind ?m ?k ?w0] =>
          assert (draws (bind m k)) as Hd
            by (apply draws_bind; [apply draws_drawTiles | intros _];
                apply draws_bind;
                  [apply draws_blitToSurface | intros _; apply draws_drawDebugOverlay]);
          destruct (Hd w0) as (_ & (tiles & Htiles) & _)
      end.
      exists tiles. rewrite Htiles. reflexivity.
Qed.

Lemma render_twice_witness :
  let first :=
    render sampleOptions 0 (sampleContext fullCache)
           (emptyWorld (newFrameBuffer false)) in
  let second :=
    render sampleOptions 0 (sampleContext fullCache)
           (emptyWorld (frameBuffer (snd first))) in
  fst second = fst first
  /\ frameBuffer (snd second) = frameBuffer (snd first)
  /\ bufferCtx (snd second) = bufferCtx (snd first)
  /\ context (snd second) = context (snd first)
  /\ fst first = Ok tt.
Proof.
  destruct (render_twice sampleOptions 0 (sampleContext fullCache)
              (newFrameBuffer false)) as (Ho & Hf & Hb & Hc & _ & Hrun).
  - intros src opts. discriminate.
  - destruct (Hrun sampleTiles getTiles_sample) as (Hok & _).
    cbv zeta. unfold emptyWorld. auto.
Defined.

(** ** The preload pass *)

(** A loop whose body only queries the cache records the queries of its
    elements, in order. *)
Lemma forEach_requests {Image A : Type} (body : A -> M Image unit)
    (f : A -> list Request.t) :
  (forall a w, exists w',
      body a w = (Ok tt, w')
      /\ frameBuffer w' = frameBuffer w
      /\ requests w' = requests w ++ f a) ->
  forall l w, exists w',
      forEach l body w = (Ok tt, w')
      /\ frameBuffer w' = frameBuffer w
      /\ requests w' = requests w ++ flat_map f l.
Proof.
  intros Hbody. induction l as [| a l IH]; intros w; cbn [forEach flat_map].
  - exists w. rewrite app_nil_r. auto.
  - destruct (Hbody a w) as (w1 & E1 & F1 & R1).
    destruct (IH w1) as (w' & E' & F' & R').
    exists w'. rewrite (bind_run _ _ _ _ _ E1), E', F', F1, R', R1, app_assoc. auto.
Qed.

(** For every cell of the grid, in the order of the loops, [preload] asks
    the cache for the tile with [preload: true] and the priority [3 -
    distance]; then it makes the buffer at least twice the required size. *)
Lemma preloadTiles_run {Image : Type} (options : Options.t)
    (getImage : GetImage Image) (t : Tiles.t) (w : World Image) :
  exists w',
    preloadTiles options getImage t w = (Ok tt, w')
    /\ requests w'
       = requests w
         ++ flat_map
              (fun x =>
                 flat_map
                   (fun y =>
                      [Request.mk (Options.source options x y (Tiles.zoom t))
                         (GetImageOptions.mk (Some (preloadPriority t x y)) None
                                             (Some true))])
                   (Zrange (snd (Tiles.tileTopLeft t)) (snd (Tiles.tileBottomRight t))))
              (Zrange (fst (Tiles.tileTopLeft t)) (fst (Tiles.tileBottomRight t)))
    /\ frameBuffer w'
       = if (Canvas.width (frameBuffer w) <? bufferWidthOf t * 2)
            || (Canvas.height (frameBuffer w) <? bufferHeightOf t * 2)
         then Canvas.mk (bufferWidthOf t * 2) (bufferHeightOf t * 2)
         else frameBuffer w.
Proof.
  unfold preloadTiles.
  match goal with
  | |- context [forEach ?xs (fun x => forEach ?ys (fun y => @?body x y))] =>
      destruct (forEach_requests
                  (fun x => forEach ys (fun y => body x y))
                  (fun x =>
                     flat_map
                       (fun y =>
                          [Request.mk (Options.source options x y (Tiles.zoom t))
                             (GetImageOptions.mk (Some (preloadPriority t x y)) None
                                                 (Some true))]) ys))
        with (l := xs) (w := w) as (w1 & E1 & F1 & R1)
  end.
  { intros x w0. apply forEach_requests. intros y w1.
    eexists. split; [reflexivity |]. split; reflexivity. }
  rewrite (bind_run _ _ _ _ _ E1). unfold bind, getBuffer. rewrite F1.
  destruct (_ || _); cbn.
  - eexists. split; [reflexivity |]. cbn. split; [exact R1 | reflexivity].
  - exists w1. auto.
Qed.

(** At equal distance a preload priority is above a render priority. *)
Lemma priority_offsets (distance : Q) :
  Num.ltb (Num.sub (Fin 2) (Fin distance)) (Num.sub (Fin 3) (Fin distance)) = true.
Proof.
  assert (2 + - distance < 3 + - distance)%Q as H by lra.
  apply Qlt_alt in H.
  change (Qcompare (2 + - distance) (3 + - distance) = Lt) in H.
  unfold Num.sub, Num.neg, Num.add, Num.ltb. rewrite H. reflexivity.
Qed.

(** C5: evaluation of [preload] and [render] on the sample view, a grid of
    three by three tiles, at the corner tile [(2, 2)].  [preload] requests
    it with [preload: true] and priority [3 - 3 = 0]: normalised by
    [tileBottomRight - (tileTopLeft + 1)], its distance is 3.  [render]
    requests the same tile with priority [2 - 1 = 1], so the preload
    priority is below the render priority. *)
Theorem preload_priority_below_render :
  exists p q : num,
    In (Request.mk (sampleSource 2 2 1)
                   (GetImageOptions.mk (Some p) None (Some true)))
       (requests (snd (preload sampleOptions sampleState identityProjection fullCache
                               (emptyWorld (newFrameBuffer false)))))
    /\ In (Request.mk (sampleSource 2 2 1)
                      (GetImageOptions.mk (Some q) (Some false) None))
          (requests (snd (render sampleOptions 0 (sampleContext fullCache)
                                 (emptyWorld (newFrameBuffer false)))))
    /\ p = preloadPriority sampleTiles 2 2
    /\ q = renderPriority sampleTiles 2 2
    /\ Num.eqb (distanceOf (0, 0) (preloadSize sampleTiles) 2 2) (Fin 3) = true
    /\ Num.eqb (distanceOf (0, 0) (renderSize sampleTiles) 2 2) (Fin 1) = true
    /\ Num.eqb p (Fin 0) = true
    /\ Num.eqb q (Fin 1) = true
    /\ Num.ltb p q = true
    /\ Num.ltb q p = false.
Proof.
  exists (preloadPriority sampleTiles 2 2), (renderPriority sampleTiles 2 2).
  unfold preload, render. cbn [sampleContext project state].
  rewrite getTiles_sample.
  split.
  { destruct (preloadTiles_run sampleOptions fullCache sampleTiles
                (emptyWorld (newFrameBuffer false))) as (w' & E & R & _).
    rewrite E. cbn [snd]. rewrite R.
    cbn [emptyWorld requests app].
    apply in_flat_map. exists 2. split; [apply In_Zrange; cbn; lia |].
    apply in_flat_map. exists 2. split; [apply In_Zrange; cbn; lia |].
    left. reflexivity. }
  split.
  { vm_compute. do 8 right. left. reflexivity. }
  repeat split; reflexivity.
Qed.

(** * Further properties *)

(** ** The grid of [getTiles] *)

Ltac eval_floor z :=
  unfold identityProjection; cbn [fst snd];
  match goal with
  | |- context [Zfloor ?e] =>
      rewrite (Zfloor_eq z e)
        by (unfold Rmax, Rmin; repeat destruct (Rle_dec _ _); lra)
  end.

Ltac eval_integer_zoom z :=
  unfold getTiles;
  match goal with
  | |- context [renderedTileSizeOf ?o (State.zoom ?s)] =>
      let Er := fresh "Er" in
      assert (renderedTileSizeOf o (State.zoom s) = 256%R) as Er
        by (unfold renderedTileSizeOf; simpl State.zoom;
            destruct (Req_dec_T _ _) as [_ | N];
            [reflexivity | exfalso; apply N; apply (Rrem1_IZR z)]);
      rewrite Er;
      change (IZR (Zpos (tileSizeOf o))) with 256%R
  end;
  destruct (Rlt_dec 256 (256 / 2)) as [L | _]; [lra |];
  cbn [sampleOptions sampleState identityProjection Options.bounds
       State.zoom State.center State.width State.height fst snd].

Lemma getTiles_belowZero :
  getTiles sampleOptions identityProjection belowZeroState = inr belowZeroTiles.
Proof.
  eval_integer_zoom (-1). cbn [belowZeroState State.zoom State.center State.width
                               State.height fst snd].
  repeat first [eval_floor 0 | eval_floor 2].
  rewrite (Zceil_eq (-1)) by lra. reflexivity.
Qed.

Lemma getTiles_unbounded :
  getTiles unboundedOptions identityProjection sampleState = inr unboundedTiles.
Proof.
  eval_integer_zoom 1. cbn [unboundedOptions Options.bounds fst snd].
  repeat first [eval_floor 0 | eval_floor (-1)].
  rewrite (Zceil_eq 1) by lra. reflexivity.
Qed.

Lemma getTiles_column :
  getTiles columnOptions identityProjection sampleState = inr columnTiles.
Proof.
  eval_integer_zoom 1. cbn [columnOptions Options.bounds fst snd].
  repeat first [eval_floor 0 | eval_floor 2].
  rewrite (Zceil_eq 1) by lra. reflexivity.
Qed.

Lemma getTiles_pair :
  getTiles pairOptions identityProjection sampleState = inr pairTiles.
Proof.
  eval_integer_zoom 1. cbn [pairOptions Options.bounds fst snd].
  repeat first [eval_floor 0 | eval_floor 1 | eval_floor 2].
  rewrite (Zceil_eq 1) by lra. reflexivity.
Qed.

Lemma getTiles_debug :
  getTiles sampleOptions identityProjection debugState = inr sampleTiles.
Proof.
  eval_integer_zoom 1. cbn [debugState State.zoom State.center State.width
                            State.height fst snd].
  repeat first [eval_floor 0 | eval_floor 2].
  rewrite (Zceil_eq 1) by lra. reflexivity.
Qed.

Lemma Rrem1_negative_zoom (z : R) : (Rrem1 z < 0)%R <-> (z < 0)%R /\ ~ isInteger z.
Proof.
  unfold isInteger. split.
  - intros H. destruct (Rlt_le_dec z 0) as [L | G].
    + split; [exact L | lra].
    + rewrite (Rrem1_nonneg z G) in H. pose proof (fractionalPart_bounds z). lra.
  - intros [L N]. destruct (Rrem1_neg z L) as [_ B]. lra.
Qed.

Lemma getTiles_inr (options : Options.t) project (state : State.t) (t : Tiles.t) :
  getTiles options project state = inr t ->
  (0 <= Rrem1 (State.zoom state))%R
  /\ Tiles.tileSize t = tileSizeOf options
  /\ Tiles.zoom t = Zceil (State.zoom state)
  /\ Tiles.renderedTileSize t = renderedTileSizeOf options (State.zoom state).
Proof.
  intros H.
  destruct (Rlt_le_dec (Rrem1 (State.zoom state)) 0) as [L | G].
  - rewrite (getTiles_throws options project state L) in H. discriminate.
  - destruct (getTiles_returns options project state G) as (t' & Ht & H1 & H2 & H3).
    rewrite Ht in H. inversion H; subst t'. auto.
Qed.

Lemma Rpower_2_lt_2 (f : R) : (f < 1)%R -> (Rpower 2 f < 2)%R.
Proof.
  intros Hf. apply Rlt_le_trans with (Rpower 2 1).
  - apply Rpower_lt; lra.
  - rewrite Rpower_1; lra.
Qed.

(** X1: [getTiles] throws only for a negative zoom that is not an integer,
    and never with another message than [Wrong tile size]. *)
Theorem getTiles_throws_only_below_zero (options : Options.t) project
    (state : State.t) (message : string) :
  getTiles options project state = inl message ->
  message = wrongTileSize
  /\ (State.zoom state < 0)%R /\ ~ isInteger (State.zoom state).
Proof.
  intros H. split.
  - unfold getTiles in H.
    destruct (Rlt_dec _ _); [| discriminate]. inversion H. reflexivity.
  - apply Rrem1_negative_zoom.
    destruct (Rlt_le_dec (Rrem1 (State.zoom state)) 0) as [L | G]; [exact L |].
    destruct (getTiles_returns options project state G) as (t & Ht & _).
    rewrite Ht in H. discriminate.
Qed.

Lemma getTiles_throws_only_below_zero_witness :
  getTiles sampleOptions identityProjection negativeState = inl wrongTileSize
  /\ (State.zoom negativeState < 0)%R /\ ~ isInteger (State.zoom negativeState).
Proof.
  assert (getTiles sampleOptions identityProjection negativeState
          = inl wrongTileSize) as H
    by (apply getTiles_throws; simpl; rewrite Rrem1_minus_half; lra).
  split; [exact H |].
  exact (proj2 (getTiles_throws_only_below_zero sampleOptions identityProjection
                  negativeState wrongTileSize H)).
Defined.

(** The size check leaves a rendered tile size that is positive. *)
Lemma getTiles_renderedTileSize_pos (options : Options.t) project (state : State.t)
    (t : Tiles.t) :
  getTiles options project state = inr t -> (0 < Tiles.renderedTileSize t)%R.
Proof.
  intros H. pose proof (tileSize_pos options) as Hp.
  unfold getTiles in H. destruct (Rlt_dec _ _) as [L | G]; [discriminate |].
  inversion H; subst t. cbn [Tiles.renderedTileSize]. lra.
Qed.

(** X2: a grid returned by [getTiles] has a rendered tile size of at least
    half the tile size and at most the tile size: tiles are never drawn
    larger than their images. *)
Theorem getTiles_renderedTileSize_range (options : Options.t) project
    (state : State.t) (t : Tiles.t) :
  getTiles options project state = inr t ->
  (IZR (Zpos (Tiles.tileSize t)) / 2 <= Tiles.renderedTileSize t
   <= IZR (Zpos (Tiles.tileSize t)))%R.
Proof.
  intros H. destruct (getTiles_inr _ _ _ _ H) as (G & Hs & _ & Hr).
  rewrite Hr, Hs. pose proof (tileSize_pos options) as Hp.
  unfold renderedTileSizeOf. destruct (Req_dec_T _ _) as [E | N]; [lra |].
  assert (0 < Rrem1 (State.zoom state))%R as Hf by lra.
  assert (Rrem1 (State.zoom state) < 1)%R as Hf1.
  { destruct (Rlt_le_dec (State.zoom state) 0) as [L | G0].
    - destruct (Rrem1_neg _ L). lra.
    - rewrite (Rrem1_nonneg _ G0). apply fractionalPart_bounds. }
  pose proof (Rpower_2_gt_1 _ Hf). pose proof (Rpower_2_lt_2 _ Hf1). nra.
Qed.

Lemma getTiles_renderedTileSize_range_witness :
  (IZR (Zpos (Tiles.tileSize sampleTiles)) / 2 <= Tiles.renderedTileSize sampleTiles
   <= IZR (Zpos (Tiles.tileSize sampleTiles)))%R.
Proof.
  exact (getTiles_renderedTileSize_range sampleOptions identityProjection sampleState
           sampleTiles getTiles_sample).
Defined.

(** X3: for a zoom that is not negative, or is an integer, the rendered tile
    size of the grid returned by [getTiles] is the tile size scaled by two
    to the power of the distance from the zoom to the zoom level of the
    tiles, [tileSize * 2^(state.zoom - zoom)]. *)
Theorem getTiles_renderedTileSize_scale (options : Options.t) project
    (state : State.t) (t : Tiles.t) :
  (0 <= State.zoom state)%R \/ isInteger (State.zoom state) ->
  getTiles options project state = inr t ->
  Tiles.renderedTileSize t
  = (IZR (Zpos (Tiles.tileSize t))
     * Rpower 2 (State.zoom state - IZR (Tiles.zoom t)))%R.
Proof.
  intros Hzoom H. destruct (getTiles_inr _ _ _ _ H) as (G & Hs & Hz & Hr).
  rewrite Hr, Hs, Hz. unfold renderedTileSizeOf.
  destruct (Req_dec_T _ _) as [E | N].
  - apply isInteger_iff in E. destruct E as [n En]. rewrite En.
    rewrite (Zceil_eq n) by lra.
    replace (IZR n - IZR n)%R with 0%R by lra. rewrite Rpower_O by lra. lra.
  - destruct Hzoom as [G0 | Hi]; [| contradiction].
    rewrite (Rrem1_nonneg _ G0) in *. unfold fractionalPart in *.
    pose proof (Zfloor_bound (State.zoom state)) as B.
    rewrite (Zceil_eq (Zfloor (State.zoom state) + 1)) by (rewrite plus_IZR; lra).
    rewrite plus_IZR.
    replace (State.zoom state - (IZR (Zfloor (State.zoom state)) + 1))%R
      with ((State.zoom state - IZR (Zfloor (State.zoom state))) + - (1))%R by lra.
    rewrite Rpower_plus, Rpower_Ropp, Rpower_1 by lra. lra.
Qed.

Lemma getTiles_renderedTileSize_scale_witness :
  exists t,
    getTiles sampleOptions identityProjection halfState = inr t
    /\ Tiles.renderedTileSize t
       = (IZR (Zpos (Tiles.tileSize t)) * Rpower 2 (1 / 2 - IZR (Tiles.zoom t)))%R.
Proof.
  destruct (getTiles_returns sampleOptions identityProjection halfState) as (t & Ht & _).
  - simpl. rewrite Rrem1_half. lra.
  - exists t. split; [exact Ht |].
    apply (getTiles_renderedTileSize_scale sampleOptions identityProjection halfState
             t); [left; simpl; lra | exact Ht].
Defined.

Lemma Zfloor_div_bound (v r : R) :
  (0 < r)%R ->
  (IZR (Zfloor (v / r)) * r <= v < (IZR (Zfloor (v / r)) + 1) * r)%R.
Proof.
  intros Hr. pose proof (Zfloor_bound (v / r)) as B.
  assert (v = v / r * r)%R as E by (field; lra).
  split.
  - rewrite E at 2. apply Rmult_le_compat_r; lra.
  - rewrite E at 1. apply Rmult_lt_compat_r; lra.
Qed.

(** X4: the grid returned by [getTiles] frames the visible part of the map:
    the left and top edges of the view (the viewport clipped to the bounds)
    fall inside the tile [tileTopLeft], and the last pixel column and row
    fall inside the tile [tileBottomRight], at the rendered tile size. *)
Theorem getTiles_frames_view (options : Options.t) project (state : State.t)
    (t : Tiles.t) :
  getTiles options project state = inr t ->
  let center := project (State.center state) in
  let boundsTopLeft :=
    project (match Options.bounds options with
             | Some b => fst b
             | None => (0, 0)%R
             end) in
  let boundsBottomRight :=
    project (match Options.bounds options with
             | Some b => snd b
             | None => (0, 0)%R
             end) in
  let left := Rmax (fst center - State.width state / 2) (fst boundsTopLeft) in
  let top := Rmax (snd center - State.height state / 2) (snd boundsTopLeft) in
  let right :=
    (Rmin (fst center + State.width state / 2) (fst boundsBottomRight) - 1)%R in
  let bottom :=
    (Rmin (snd center + State.height state / 2) (snd boundsBottomRight) - 1)%R in
  let size := Tiles.renderedTileSize t in
  (IZR (fst (Tiles.tileTopLeft t)) * size <= left
   < (IZR (fst (Tiles.tileTopLeft t)) + 1) * size)%R
  /\ (IZR (snd (Tiles.tileTopLeft t)) * size <= top
      < (IZR (snd (Tiles.tileTopLeft t)) + 1) * size)%R
  /\ (IZR (fst (Tiles.tileBottomRight t)) * size <= right
      < (IZR (fst (Tiles.tileBottomRight t)) + 1) * size)%R
  /\ (IZR (snd (Tiles.tileBottomRight t)) * size <= bottom
      < (IZR (snd (Tiles.tileBottomRight t)) + 1) * size)%R.
Proof.
  intros H. pose proof (getTiles_renderedTileSize_pos _ _ _ _ H) as Hpos.
  unfold getTiles in H. destruct (Rlt_dec _ _); [discriminate |].
  inversion H; subst t; clear H. cbn [Tiles.renderedTileSize] in Hpos.
  cbv zeta. cbn [Tiles.tileTopLeft Tiles.tileBottomRight Tiles.renderedTileSize fst snd].
  repeat split; apply Zfloor_div_bound; exact Hpos.
Qed.

Lemma getTiles_frames_view_witness :
  (IZR 0 * 256 <= Rmax (384 - 768 / 2) 0 < (IZR 0 + 1) * 256)%R
  /\ (IZR 2 * 256 <= Rmin (384 + 768 / 2) 768 - 1 < (IZR 2 + 1) * 256)%R.
Proof.
  destruct (getTiles_frames_view sampleOptions identityProjection sampleState
              sampleTiles getTiles_sample) as (Hl & _ & Hr & _).
  split; [exact Hl | exact Hr].
Defined.

(** X5: without the [bounds] option the view is clipped to a single point,
    and the grid returned by [getTiles] has no tile to the right of or below
    [tileTopLeft]: the loops visit at most one tile. *)
Theorem getTiles_without_bounds (options : Options.t) project (state : State.t)
    (t : Tiles.t) :
  Options.bounds options = None ->
  getTiles options project state = inr t ->
  fst (Tiles.tileBottomRight t) <= fst (Tiles.tileTopLeft t)
  /\ snd (Tiles.tileBottomRight t) <= snd (Tiles.tileTopLeft t)
  /\ (List.length (Zrange (fst (Tiles.tileTopLeft t)) (fst (Tiles.tileBottomRight t)))
      <= 1)%nat
  /\ (List.length (Zrange (snd (Tiles.tileTopLeft t)) (snd (Tiles.tileBottomRight t)))
      <= 1)%nat.
Proof.
  intros Hb H. pose proof (getTiles_renderedTileSize_pos _ _ _ _ H) as Hpos.
  unfold getTiles in H. destruct (Rlt_dec _ _); [discriminate |].
  inversion H; subst t; clear H. rewrite Hb in *.
  cbn [Tiles.tileTopLeft Tiles.tileBottomRight Tiles.renderedTileSize fst snd] in *.
  assert (forall a b c r : R,
            (0 < r)%R -> Zfloor ((Rmin a b - 1) / r) <= Zfloor (Rmax c b / r)) as Hle.
  { intros a b c r Hr0. apply Zfloor_le.
    apply Rmult_le_compat_r; [left; apply Rinv_0_lt_compat; exact Hr0 |].
    pose proof (Rmin_r a b). pose proof (Rmax_r c b). lra. }
  assert (forall lo hi, hi <= lo -> (List.length (Zrange lo hi) <= 1)%nat) as Hlen.
  { intros lo hi Hh. unfold Zrange. rewrite List.length_map, List.length_seq. lia. }
  split; [apply Hle; exact Hpos |]. split; [apply Hle; exact Hpos |].
  split; apply Hlen; apply Hle; exact Hpos.
Qed.

Lemma getTiles_without_bounds_witness :
  fst (Tiles.tileBottomRight unboundedTiles) <= fst (Tiles.tileTopLeft unboundedTiles)
  /\ (List.length (Zrange 0 (-1)) <= 1)%nat.
Proof.
  destruct (getTiles_without_bounds unboundedOptions identityProjection sampleState
              unboundedTiles eq_refl getTiles_unbounded) as (H1 & _ & H3 & _).
  split; [exact H1 | exact H3].
Defined.

(** ** The walk of the fallback resolver *)

Section FallbackWalk.

Context {Image : Type}.
Variable options : Options.t.
Variable getImage : GetImage Image.

Lemma ancestor_halved (x y : Q) (zoom : Z) (k : nat) :
  ancestor options (x / 2) (y / 2) (zoom - 1) k = ancestor options x y zoom (S k).
Proof.
  unfold ancestor.
  rewrite (Qfloor_comp _ _ (halve_pow2 x k)), (Qfloor_comp _ _ (halve_pow2 y k)).
  f_equal. lia.
Qed.

Lemma ancestors_halved (x y : Q) (zoom : Z) (k : nat) :
  map (fun j => Request.mk (ancestor options x y zoom j) cacheOnlyQuery) (seq 2 k)
  = map (fun j => Request.mk (ancestor options (x / 2) (y / 2) (zoom - 1) j)
                             cacheOnlyQuery) (seq 1 k).
Proof.
  rewrite <- (seq_shift k 1), map_map. apply map_ext.
  intros j. rewrite ancestor_halved. reflexivity.
Qed.

Lemma getFallbackTile_nearest_hit fuel :
  forall x y zoom scale (w w' : World Image) f,
    getFallbackTile options fuel getImage x y zoom scale w = (Ok (Some f), w') ->
    exists k : nat,
      (1 <= k)%nat
      /\ getImage (ancestor options x y zoom k) cacheOnlyQuery
         = Some (Fallback.image f)
      /\ (forall j, (1 <= j < k)%nat ->
            getImage (ancestor options x y zoom j) cacheOnlyQuery = None)
      /\ requests w'
         = requests w
           ++ map (fun j => Request.mk (ancestor options x y zoom j) cacheOnlyQuery)
                  (seq 1 k).
Proof.
  induction fuel as [| fuel IH]; intros x y zoom scale w w' f H; [discriminate |].
  rewrite getFallbackTile_step in H.
  destruct (zoom =? 0); [discriminate |]. cbv zeta in H.
  change (Options.source options (Qfloor (x / 2)) (Qfloor (y / 2)) (zoom - 1))
    with (ancestor options x y zoom 1) in H.
  destruct (getImage (ancestor options x y zoom 1) cacheOnlyQuery) as [img |] eqn:E.
  - inversion H; subst; clear H. exists 1%nat.
    split; [lia |]. split; [exact E |]. split; [intros j Hj; lia | reflexivity].
  - apply IH in H. destruct H as (k & Hk & Hhit & Hmiss & Hreq).
    exists (S k). split; [lia |]. split; [rewrite <- ancestor_halved; exact Hhit |].
    split.
    + intros j Hj. destruct j as [| [| j]]; [lia | exact E |].
      rewrite <- ancestor_halved. apply Hmiss. lia.
    + rewrite Hreq. cbn [requests]. rewrite <- app_assoc.
      cbn [seq map app]. rewrite ancestors_halved. reflexivity.
Qed.

Lemma getFallbackTile_none_walk fuel :
  forall x y zoom scale (w : World Image),
    0 <= zoom < Z.of_nat fuel ->
    (forall k, (1 <= k)%nat -> Z.of_nat k <= zoom ->
       getImage (ancestor options x y zoom k) cacheOnlyQuery = None) ->
    getFallbackTile options fuel getImage x y zoom scale w
    = (Ok None,
       mkWorld (frameBuffer w) (bufferCtx w) (context w)
         (requests w
          ++ map (fun j => Request.mk (ancestor options x y zoom j) cacheOnlyQuery)
                 (seq 1 (Z.to_nat zoom)))).
Proof.
  induction fuel as [| fuel IH]; intros x y zoom scale w Hz Hmiss; [lia |].
  rewrite getFallbackTile_step.
  destruct (Z.eqb_spec zoom 0) as [-> | Hn].
  - cbn. rewrite app_nil_r. destruct w. reflexivity.
  - cbv zeta.
    change (Options.source options (Qfloor (x / 2)) (Qfloor (y / 2)) (zoom - 1))
      with (ancestor options x y zoom 1).
    rewrite (Hmiss 1%nat) by lia.
    rewrite IH.
    + cbn [frameBuffer bufferCtx context requests]. rewrite <- app_assoc.
      replace (Z.to_nat zoom) with (S (Z.to_nat (zoom - 1))) by lia.
      cbn [seq map app]. rewrite ancestors_halved. reflexivity.
    + lia.
    + intros k Hk Hkz. rewrite ancestor_halved. apply Hmiss; lia.
Qed.

Lemma getFallbackTile_none_misses fuel :
  forall x y zoom scale (w : World Image),
    fst (getFallbackTile options fuel getImage x y zoom scale w) = Ok None ->
    forall k, (1 <= k)%nat -> Z.of_nat k <= zoom ->
      getImage (ancestor options x y zoom k) cacheOnlyQuery = None.
Proof.
  induction fuel as [| fuel IH]; intros x y zoom scale w H k Hk Hkz; [discriminate |].
  rewrite getFallbackTile_step in H.
  destruct (Z.eqb_spec zoom 0) as [-> | Hn]; [lia |]. cbv zeta in H.
  change (Options.source options (Qfloor (x / 2)) (Qfloor (y / 2)) (zoom - 1))
    with (ancestor options x y zoom 1) in H.
  destruct (getImage (ancestor options x y zoom 1) cacheOnlyQuery) eqn:E;
    [discriminate |].
  destruct k as [| [| k]]; [lia | exact E |].
  rewrite <- ancestor_halved. apply (IH _ _ _ _ _ H); lia.
Qed.

Lemma getFallbackTile_query_count fuel :
  forall x y zoom scale (w : World Image),
    0 <= zoom ->
    exists rs,
      requests (snd (getFallbackTile options fuel getImage x y zoom scale w))
      = requests w ++ rs
      /\ Z.of_nat (List.length rs) <= zoom.
Proof.
  induction fuel as [| fuel IH]; intros x y zoom scale w Hz.
  - exists []. cbn. rewrite app_nil_r. split; [reflexivity | exact Hz].
  - rewrite getFallbackTile_step. destruct (Z.eqb_spec zoom 0) as [-> | Hn].
    + exists []. cbn. rewrite app_nil_r. split; [reflexivity | lia].
    + cbv zeta. destruct (getImage _ _).
      * eexists. cbn [snd requests]. split; [reflexivity |]. cbn. lia.
      * match goal with
        | |- context [getFallbackTile _ _ _ ?a ?b ?c ?d ?e] =>
            destruct (IH a b c d e) as (rs & Hrs & Hlen); [lia |]
        end.
        rewrite Hrs. cbn [requests]. rewrite <- app_assoc.
        eexists. split; [reflexivity |]. cbn [app List.length]. lia.
Qed.

End FallbackWalk.

(** X6: from a zoom level that is not negative, with a recursion depth above
    the level, the resolver answers none exactly when none of the ancestors
    of the tile, up to level 0, is in the cache; it has then asked for each
    of them once, from the parent up. *)
Theorem getFallbackTile_none_iff {Image : Type} (options : Options.t)
    (getImage : GetImage Image) (fuel : nat) (x y : Q) (zoom : Z) (scale : Q)
    (w : World Image) :
  0 <= zoom < Z.of_nat fuel ->
  (fst (getFallbackTile options fuel getImage x y zoom scale w) = Ok None
   <-> forall k, (1 <= k)%nat -> Z.of_nat k <= zoom ->
         getImage (ancestor options x y zoom k) cacheOnlyQuery = None)
  /\ (fst (getFallbackTile options fuel getImage x y zoom scale w) = Ok None ->
      requests (snd (getFallbackTile options fuel getImage x y zoom scale w))
      = requests w
        ++ map (fun j => Request.mk (ancestor options x y zoom j) cacheOnlyQuery)
               (seq 1 (Z.to_nat zoom))).
Proof.
  intros Hz.
  pose proof (getFallbackTile_none_misses options getImage fuel x y zoom scale w)
    as Hfwd.
  split; [split; [exact Hfwd |] |].
  - intros Hmiss.
    rewrite (getFallbackTile_none_walk options getImage fuel x y zoom scale w Hz Hmiss).
    reflexivity.
  - intros Hnone.
    rewrite (getFallbackTile_none_walk options getImage fuel x y zoom scale w Hz
               (Hfwd Hnone)).
    reflexivity.
Qed.

Lemma getFallbackTile_none_iff_witness :
  fst (getFallbackTile sampleOptions 2 emptyCache (inject_Z 2) (inject_Z 1) 1 1
                       (emptyWorld (newFrameBuffer false))) = Ok None.
Proof.
  apply (proj1 (getFallbackTile_none_iff sampleOptions emptyCache 2 (inject_Z 2)
                  (inject_Z 1) 1 1 (emptyWorld (newFrameBuffer false))
                  ltac:(cbn; lia))).
  intros k _ _. reflexivity.
Defined.

(** X7: a result of the resolver is the nearest cached ancestor: it is the
    image the cache holds for the ancestor [k] levels up, every ancestor
    below that level is missing from the cache, and the resolver has asked
    for exactly these [k] ancestors, from the parent up. *)
Theorem getFallbackTile_nearest {Image : Type} (options : Options.t)
    (getImage : GetImage Image) (fuel : nat) (x y : Q) (zoom : Z) (scale : Q)
    (w w' : World Image) (f : Fallback.t Image) :
  getFallbackTile options fuel getImage x y zoom scale w = (Ok (Some f), w') ->
  exists k : nat,
    (1 <= k)%nat
    /\ getImage (ancestor options x y zoom k) cacheOnlyQuery = Some (Fallback.image f)
    /\ (forall j, (1 <= j < k)%nat ->
          getImage (ancestor options x y zoom j) cacheOnlyQuery = None)
    /\ requests w'
       = requests w
         ++ map (fun j => Request.mk (ancestor options x y zoom j) cacheOnlyQuery)
                (seq 1 k).
Proof. apply getFallbackTile_nearest_hit. Qed.

Lemma getFallbackTile_nearest_witness :
  exists f w' k,
    getFallbackTile sampleOptions 3 rootCache (inject_Z 3) (inject_Z 1) 2 1
                    (emptyWorld (newFrameBuffer false)) = (Ok (Some f), w')
    /\ rootCache (ancestor sampleOptions (inject_Z 3) (inject_Z 1) 2 k) cacheOnlyQuery
       = Some (Fallback.image f)
    /\ List.length (requests w') = k.
Proof.
  eexists. eexists.
  edestruct (@getFallbackTile_nearest string sampleOptions rootCache 3 (inject_Z 3)
               (inject_Z 1) 2 1 (emptyWorld (newFrameBuffer false)))
    as (k & _ & Hhit & _ & Hreq).
  - vm_compute. reflexivity.
  - exists k. split; [vm_compute; reflexivity |]. split; [exact Hhit |].
    rewrite Hreq. cbn [emptyWorld requests app].
    rewrite List.length_map, List.length_seq. reflexivity.
Defined.

(** X8: from a zoom level that is not negative the resolver asks the cache
    at most [zoom] times, whatever the cache holds and whatever depth the
    recursion is allowed. *)
Theorem getFallbackTile_asks_at_most_zoom {Image : Type} (options : Options.t)
    (getImage : GetImage Image) (fuel : nat) (x y : Q) (zoom : Z) (scale : Q)
    (w : World Image) :
  0 <= zoom ->
  exists rs,
    requests (snd (getFallbackTile options fuel getImage x y zoom scale w))
    = requests w ++ rs
    /\ Z.of_nat (List.length rs) <= zoom.
Proof. apply getFallbackTile_query_count. Qed.

Lemma getFallbackTile_asks_at_most_zoom_witness :
  exists rs,
    requests (snd (getFallbackTile sampleOptions 5 emptyCache (inject_Z 3) (inject_Z 1)
                                   2 1 (emptyWorld (newFrameBuffer false))))
    = [] ++ rs
    /\ Z.of_nat (List.length rs) <= 2.
Proof.
  apply (getFallbackTile_asks_at_most_zoom sampleOptions emptyCache 5 (inject_Z 3)
           (inject_Z 1) 2 1 (emptyWorld (newFrameBuffer false))).
  lia.
Defined.

(** ** More on the render pass *)

Lemma bind_outOfFuel {Image A B : Type} (m : M Image A) (k : A -> M Image B)
    (w : World Image) :
  fst (m w) = OutOfFuel -> fst (bind m k w) = OutOfFuel.
Proof.
  intros H. unfold bind. destruct (m w) as [[a | e |] w1]; cbn in *;
    try discriminate; reflexivity.
Qed.

Lemma Zrange_cons (lo hi : Z) : lo <= hi -> Zrange lo hi = lo :: Zrange (lo + 1) hi.
Proof.
  intros H. unfold Zrange.
  replace (Z.to_nat (hi - lo + 1)) with (S (Z.to_nat (hi - (lo + 1) + 1))) by lia.
  cbn [seq map]. f_equal; [lia |].
  rewrite <- seq_shift, map_map. apply map_ext. intros k. lia.
Qed.

(** X9: at a zoom level below zero, with nothing in the cache and at least
    one tile in the grid, a render pass does not end, whatever depth the
    recursion of the fallback resolver is allowed: the walk up from a
    negative level never meets level 0. *)
Theorem render_below_zero_never_ends {Image : Type} (options : Options.t)
    (c : RenderContext Image) (t : Tiles.t) :
  getTiles options (project c) (state c) = inr t ->
  Tiles.zoom t < 0 ->
  (forall src opts, getImage c src opts = None) ->
  fst (Tiles.tileTopLeft t) <= fst (Tiles.tileBottomRight t) ->
  snd (Tiles.tileTopLeft t) <= snd (Tiles.tileBottomRight t) ->
  forall fuel (w : World Image), fst (render options fuel c w) = OutOfFuel.
Proof.
  intros Ht Hz Hmiss Hx Hy fuel w.
  unfold render. rewrite Ht, renderTiles_run. unfold paintTiles.
  match goal with
  | |- context [bind (clearBuffer c) _ ?w0] =>
      destruct (run_unit (clearBuffer c) w0 (draws_clearBuffer c)
                  (completes_clearBuffer c)) as (w1 & E1 & _)
  end.
  rewrite (bind_run _ _ _ _ _ E1). apply bind_outOfFuel.
  unfold drawTiles. rewrite (Zrange_cons _ _ Hx). cbn [forEach].
  apply bind_outOfFuel. rewrite (Zrange_cons _ _ Hy). cbn [forEach].
  apply bind_outOfFuel. unfold drawTile.
  unfold bind at 1, query at 1. rewrite Hmiss. cbv beta iota.
  apply bind_outOfFuel. apply getFallbackTile_below_zero; assumption.
Qed.

Lemma render_below_zero_never_ends_witness :
  fst (render sampleOptions 7
         (mkRenderContext belowZeroState identityProjection emptyCache "pan" None)
         (emptyWorld (newFrameBuffer false))) = OutOfFuel.
Proof.
  apply (render_below_zero_never_ends sampleOptions
           (mkRenderContext belowZeroState identityProjection emptyCache "pan" None)
           belowZeroTiles getTiles_belowZero); cbn; try lia.
  intros src opts. reflexivity.
Defined.

Section Asks.

Context {Image : Type}.
Variable P : Request.t -> Prop.

Lemma asks_nothing {A : Type} (m : M Image A) :
  (forall w, requests (snd (m w)) = requests w) -> asks P m.
Proof.
  intros H w. exists []. rewrite app_nil_r. split; [apply H | constructor].
Qed.

Lemma asks_bind {A B : Type} (m : M Image A) (k : A -> M Image B) :
  asks P m -> (forall a, asks P (k a)) -> asks P (bind m k).
Proof.
  intros Hm Hk w. unfold bind. destruct (Hm w) as (rs & Hrs & Hall).
  destruct (m w) as [[a | e |] w1]; cbn [snd] in *.
  - destruct (Hk a w1) as (rs' & Hrs' & Hall').
    exists (rs ++ rs'). rewrite Hrs', Hrs, app_assoc.
    split; [reflexivity | apply Forall_app; split; assumption].
  - exists rs. auto.
  - exists rs. auto.
Qed.

Lemma asks_when (b : bool) (m : M Image unit) : asks P m -> asks P (when b m).
Proof. destruct b; [auto | intros _; apply asks_nothing; reflexivity]. Qed.

Lemma asks_forEach {A : Type} (l : list A) (body : A -> M Image unit) :
  (forall a, asks P (body a)) -> asks P (forEach l body).
Proof.
  intros H. induction l as [| a l IH]; cbn [forEach].
  - apply asks_nothing. reflexivity.
  - apply asks_bind; [apply H | intros _; exact IH].
Qed.

Lemma asks_query (getImage : GetImage Image) src opts :
  P (Request.mk src opts) -> asks P (query getImage src opts).
Proof.
  intros H w. exists [Request.mk src opts]. split; [reflexivity |].
  constructor; [exact H | constructor].
Qed.

End Asks.

Lemma asks_getFallbackTile {Image : Type} (options : Options.t) fuel
    (getImage : GetImage Image) x y zoom scale :
  asks (fun r => GetImageOptions.cacheOnly (Request.opts r) = Some true)
       (getFallbackTile options fuel getImage x y zoom scale).
Proof.
  intros w.
  destruct (getFallbackTile_effects options getImage fuel x y zoom scale w)
    as (_ & _ & _ & H).
  exact H.
Qed.

(** X10: a render pass whose reason is [ease] restricts every query it makes
    to the cache, the queries for the tiles as well as those of the fallback
    resolver, however the pass ends. *)
Theorem render_ease_cache_only {Image : Type} (options : Options.t) (fuel : nat)
    (c : RenderContext Image) (w : World Image) :
  reason c = "ease"%string ->
  exists rs,
    requests (snd (render options fuel c w)) = requests w ++ rs
    /\ Forall (fun r => GetImageOptions.cacheOnly (Request.opts r) = Some true) rs.
Proof.
  intros Hr. revert w.
  change (asks (fun r => GetImageOptions.cacheOnly (Request.opts r) = Some true)
               (render options fuel c)).
  set (P := fun r => GetImageOptions.cacheOnly (Request.opts r) = Some true).
  assert (forall A (m : M Image A),
            (forall w, requests (snd (m w)) = requests w) -> asks P m) as Hquiet
    by (intros; apply asks_nothing; assumption).
  assert (forall x y t, asks P (drawTile options fuel c t x y)) as Htile.
  { intros x y t. unfold drawTile.
    apply asks_bind; [apply asks_query; unfold P; cbn; rewrite Hr; reflexivity |].
    intros [tile |].
    - apply asks_bind; [| intros _]; apply Hquiet; reflexivity.
    - apply asks_bind; [apply asks_getFallbackTile | intros fallback].
      apply asks_bind; [destruct fallback; apply Hquiet; reflexivity | intros _].
      apply asks_when. apply asks_bind; [| intros _]; apply Hquiet; reflexivity. }
  unfold render. destruct (getTiles _ _ _) as [e | t]; [apply Hquiet; reflexivity |].
  unfold renderTiles.
  apply asks_bind; [apply Hquiet; intros w; rewrite ensureBuffer_run; reflexivity |].
  intros _. unfold paintTiles.
  apply asks_bind; [apply Hquiet; reflexivity | intros _].
  apply asks_bind.
  { unfold drawTiles. apply asks_forEach. intros x. apply asks_forEach. intros y.
    apply Htile. }
  intros _. apply asks_bind; [apply Hquiet; reflexivity | intros _].
  unfold drawDebugOverlay. apply asks_when.
  apply asks_bind; [apply Hquiet; reflexivity | intros _].
  apply asks_bind; [| intros _; apply Hquiet; reflexivity].
  apply asks_forEach. intros x. apply asks_forEach. intros y.
  apply Hquiet. reflexivity.
Qed.

Lemma render_ease_cache_only_witness :
  exists rs,
    requests (snd (render sampleOptions 2 (easeContext emptyCache)
                          (emptyWorld (newFrameBuffer false)))) = [] ++ rs
    /\ Forall (fun r => GetImageOptions.cacheOnly (Request.opts r) = Some true) rs.
Proof.
  apply (render_ease_cache_only sampleOptions 2 (easeContext emptyCache)
           (emptyWorld (newFrameBuffer false))).
  reflexivity.
Defined.

Section Records.

Context {Image : Type}.

Lemma record_nil (w : World Image) : record w [] [] [] = w.
Proof. destruct w. unfold record. cbn. rewrite !app_nil_r. reflexivity. Qed.

Lemma record_record (w : World Image) b c r b' c' r' :
  record (record w b c r) b' c' r' = record w (b ++ b') (c ++ c') (r ++ r').
Proof. unfold record. cbn. rewrite !app_assoc. reflexivity. Qed.

Lemma bind_record {A B : Type} (m : M Image A) (k : A -> M Image B)
    (w : World Image) (a : A) b c r :
  m w = (Ok a, record w b c r) -> bind m k w = k a (record w b c r).
Proof. apply bind_run. Qed.

Lemma forEach_record {A : Type} (body : A -> M Image unit)
    (g : A -> list (Cmd Q Image)) (h : A -> list (Cmd R BufferImage))
    (f : A -> list Request.t) :
  (forall a w, body a w = (Ok tt, record w (g a) (h a) (f a))) ->
  forall l w,
    forEach l body w = (Ok tt, record w (flat_map g l) (flat_map h l) (flat_map f l)).
Proof.
  intros Hbody. induction l as [| a l IH]; intros w; cbn [forEach flat_map].
  - rewrite record_nil. reflexivity.
  - rewrite (bind_run _ _ _ _ _ (Hbody a w)), IH, record_record. reflexivity.
Qed.

Lemma onBuffer_record (cmd : Cmd Q Image) (w : World Image) :
  onBuffer cmd w = (Ok tt, record w [cmd] [] []).
Proof. unfold onBuffer, record. rewrite !app_nil_r. reflexivity. Qed.

Lemma onContext_record (cmd : Cmd R BufferImage) (w : World Image) :
  onContext (Image := Image) cmd w = (Ok tt, record w [] [cmd] []).
Proof. unfold onContext, record. rewrite !app_nil_r. reflexivity. Qed.

Lemma query_record (getImage : GetImage Image) src opts (w : World Image) :
  query getImage src opts w
  = (Ok (getImage src opts), record w [] [] [Request.mk src opts]).
Proof. unfold query, record. rewrite !app_nil_r. reflexivity. Qed.

(** The overlay of the debug mode is drawn on the destination only. *)
Lemma renderDebugGrid_record x y zoom width height (w : World Image) :
  exists cs, renderDebugGrid x y zoom width height w = (Ok tt, record w [] cs []).
Proof.
  unfold renderDebugGrid.
  repeat (rewrite (bind_run _ _ _ _ _ (onContext_record _ _)), ?record_record).
  rewrite onContext_record, record_record. cbn [app]. eexists. reflexivity.
Qed.

Lemma forEach_context {A : Type} (body : A -> M Image unit) :
  (forall a w, exists cs, body a w = (Ok tt, record w [] cs [])) ->
  forall l w, exists cs, forEach l body w = (Ok tt, record w [] cs []).
Proof.
  intros Hbody. induction l as [| a l IH]; intros w; cbn [forEach].
  - exists []. rewrite record_nil. reflexivity.
  - destruct (Hbody a w) as (cs & E). rewrite (bind_run _ _ _ _ _ E).
    destruct (IH (record w [] cs [])) as (cs' & E'). rewrite E', record_record.
    eexists. reflexivity.
Qed.

Lemma drawDebugOverlay_record (c : RenderContext Image) t (w : World Image) :
  exists cs,
    drawDebugOverlay c t w = (Ok tt, record w [] cs [])
    /\ (State.debug (state c) = false -> cs = []).
Proof.
  unfold drawDebugOverlay. destruct (State.debug (state c)); cbn [when].
  - rewrite (bind_run _ _ _ _ _ (onContext_record _ _)).
    match goal with
    | |- context [bind (forEach ?l ?body) _ ?w0] =>
        destruct (forEach_context body
                    (fun x w1 =>
                       forEach_context _ (fun y w2 =>
                         renderDebugGrid_record x y (Tiles.zoom t) _ _ w2) _ w1)
                    l w0) as (cs & E)
    end.
    rewrite (bind_run _ _ _ _ _ E), onContext_record, !record_record.
    eexists. split; [reflexivity | discriminate].
  - exists []. rewrite record_nil. split; reflexivity.
Qed.

End Records.

(** A tile found in the cache is drawn on its footprint; the resolver is
    not called. *)
Lemma drawTile_hit {Image : Type} (options : Options.t) (fuel : nat)
    (c : RenderContext Image) (t : Tiles.t) (x y : Z) (w : World Image)
    (tile : Image) :
  let key := Options.source options x y (Tiles.zoom t) in
  let opts :=
    GetImageOptions.mk (Some (renderPriority t x y))
                       (Some (String.eqb (reason c) "ease")) None in
  let tileSize := inject_Z (Zpos (Tiles.tileSize t)) in
  let dx := inject_Z ((x - fst (Tiles.tileTopLeft t)) * Zpos (Tiles.tileSize t)) in
  let dy := inject_Z ((y - snd (Tiles.tileTopLeft t)) * Zpos (Tiles.tileSize t)) in
  getImage c key opts = Some tile ->
  drawTile options fuel c t x y w
  = (Ok tt,
     record w [DrawImage tile dx dy tileSize tileSize; SetStrokeStyle "orange"] []
              [Request.mk key opts]).
Proof.
  cbv zeta. intros H. unfold drawTile.
  rewrite (bind_run _ _ _ _ _ (query_record _ _ _ _)), H.
  rewrite (bind_run _ _ _ _ _ (onBuffer_record _ _)), onBuffer_record, !record_record.
  reflexivity.
Qed.

Lemma clearBuffer_record {Image : Type} (c : RenderContext Image) (w : World Image) :
  clearBuffer c w
  = (Ok tt,
     record w
       [SetFillStyle (match backgroundColor c with
                      | Some color => color
                      | None => "#000"
                      end);
        FillRect 0%Q 0%Q (inject_Z (Canvas.width (frameBuffer w)))
                 (inject_Z (Canvas.height (frameBuffer w)))] [] []).
Proof.
  unfold clearBuffer.
  rewrite (bind_run _ _ _ _ _ (onBuffer_record _ _)).
  unfold bind, getBuffer. rewrite onBuffer_record, record_record. reflexivity.
Qed.

(** X11: with every tile of the grid in the cache, a render pass ends
    normally and makes exactly these calls.  On the buffer: the background
    fill of the whole buffer, then, cell by cell in the order of the loops,
    the tile drawn on the footprint of its cell.  To the cache: one query per
    cell, with the priority of the cell, and none from the fallback
    resolver.  On the destination: the buffer, followed by the debug overlay
    only when [state.debug] is set. *)
Theorem render_fully_cached {Image : Type} (options : Options.t) (fuel : nat)
    (c : RenderContext Image) (t : Tiles.t) (w : World Image)
    (tile : string -> GetImageOptions.t -> Image) :
  (forall src opts, getImage c src opts = Some (tile src opts)) ->
  getTiles options (project c) (state c) = inr t ->
  let key x y := Options.source options x y (Tiles.zoom t) in
  let opts x y :=
    GetImageOptions.mk (Some (renderPriority t x y))
                       (Some (String.eqb (reason c) "ease")) None in
  let tileSize := inject_Z (Zpos (Tiles.tileSize t)) in
  let dx x := inject_Z ((x - fst (Tiles.tileTopLeft t)) * Zpos (Tiles.tileSize t)) in
  let dy y := inject_Z ((y - snd (Tiles.tileTopLeft t)) * Zpos (Tiles.tileSize t)) in
  let buffer := ensured (frameBuffer w) t in
  exists overlay,
    render options fuel c w
    = (Ok tt,
       mkWorld buffer
         (bufferCtx w
          ++ SetFillStyle (match backgroundColor c with
                           | Some color => color
                           | None => "#000"
                           end)
             :: FillRect 0%Q 0%Q (inject_Z (Canvas.width buffer))
                         (inject_Z (Canvas.height buffer))
             :: cells t (fun x y =>
                           [DrawImage (tile (key x y) (opts x y))
                                      (dx x) (dy y) tileSize tileSize;
                            SetStrokeStyle "orange"]))
         (context w
          ++ DrawImageSub TheFrameBuffer
               0%R 0%R (IZR (bufferWidthOf t)) (IZR (bufferHeightOf t))
               (IZR (fst (Tiles.tileTopLeft t)) * Tiles.renderedTileSize t)%R
               (IZR (snd (Tiles.tileTopLeft t)) * Tiles.renderedTileSize t)%R
               (IZR (fst (Tiles.tileBottomRight t) - fst (Tiles.tileTopLeft t) + 1)
                * Tiles.renderedTileSize t)%R
               (IZR (snd (Tiles.tileBottomRight t) - snd (Tiles.tileTopLeft t) + 1)
                * Tiles.renderedTileSize t)%R
             :: overlay)
         (requests w ++ cells t (fun x y => [Request.mk (key x y) (opts x y)])))
    /\ (State.debug (state c) = false -> overlay = []).
Proof.
  intros Hfull Ht. cbv zeta.
  unfold render. rewrite Ht, renderTiles_run.
  set (w0 := mkWorld (ensured (frameBuffer w) t) _ _ _).
  unfold paintTiles.
  rewrite (bind_run _ _ _ _ _ (clearBuffer_record c w0)).
  unfold drawTiles.
  rewrite (bind_run _ _ _ _ _
             (forEach_record _ _ _ _
                (fun x w1 =>
                   forEach_record _ _ _ _
                     (fun y w2 => drawTile_hit options fuel c t x y w2 _ (Hfull _ _))
                     _ w1)
                _ _)).
  unfold blitToSurface.
  rewrite (bind_run _ _ _ _ _ (onContext_record _ _)).
  match goal with
  | |- context [drawDebugOverlay c t ?w1] =>
      destruct (drawDebugOverlay_record c t w1) as (overlay & E & Hoff)
  end.
  exists overlay. split; [| exact Hoff].
  rewrite E, !record_record. unfold record, w0, cells.
  cbn [frameBuffer bufferCtx context requests app].
  repeat rewrite app_nil_r.
  assert (forall (A B : Type) (l : list A), flat_map (fun _ : A => @nil B) l = [])
    as Hnil by (intros A B l; induction l; auto).
  rewrite !Hnil. cbn [app]. reflexivity.
Qed.

Lemma render_fully_cached_witness :
  exists w',
    render sampleOptions 0 (sampleContext fullCache)
           (emptyWorld (newFrameBuffer false)) = (Ok tt, w')
    /\ List.length (bufferCtx w') = 20%nat
    /\ List.length (requests w') = 9%nat
    /\ List.length (context w') = 1%nat.
Proof.
  destruct (render_fully_cached sampleOptions 0 (sampleContext fullCache) sampleTiles
              (emptyWorld (newFrameBuffer false)) (fun src _ => src))
    as (overlay & E & Hoff).
  - intros src opts. reflexivity.
  - exact getTiles_sample.
  - rewrite (Hoff eq_refl) in E. eexists. split; [exact E |].
    cbn [bufferCtx requests context]. split; [| split]; reflexivity.
Defined.

(** ** The size of the buffer *)

Lemma ensured_band (buffer : Canvas.t) (t : Tiles.t) :
  0 <= bufferWidthOf t -> 0 <= bufferHeightOf t ->
  bufferWidthOf t <= Canvas.width (ensured buffer t) <= bufferWidthOf t * 4
  /\ bufferHeightOf t <= Canvas.height (ensured buffer t) <= bufferHeightOf t * 4.
Proof.
  intros Hw Hh. unfold ensured.
  destruct (mustResize buffer _ _) eqn:E; cbn [Canvas.width Canvas.height]; [lia |].
  assert (~ (Canvas.width buffer < bufferWidthOf t
             \/ Canvas.height buffer < bufferHeightOf t
             \/ Canvas.width buffer > bufferWidthOf t * 4
             \/ Canvas.height buffer > bufferHeightOf t * 4)) as N
    by (intros H; apply mustResize_iff in H; congruence).
  lia.
Qed.

Lemma render_buffer {Image : Type} (options : Options.t) (fuel : nat)
    (c : RenderContext Image) (t : Tiles.t) (w : World Image) :
  getTiles options (project c) (state c) = inr t ->
  frameBuffer (snd (render options fuel c w)) = ensured (frameBuffer w) t.
Proof. intros Ht. unfold render. rewrite Ht. apply renderTiles_buffer. Qed.

(** X12: after a render pass over a grid whose required buffer size is not
    negative, the buffer is at least as large as required and at most four
    times as large, in each dimension, whatever its size was before and
    however the pass ends. *)
Theorem render_buffer_band {Image : Type} (options : Options.t) (fuel : nat)
    (c : RenderContext Image) (t : Tiles.t) (w : World Image) :
  getTiles options (project c) (state c) = inr t ->
  0 <= bufferWidthOf t -> 0 <= bufferHeightOf t ->
  let buffer := frameBuffer (snd (render options fuel c w)) in
  bufferWidthOf t <= Canvas.width buffer <= bufferWidthOf t * 4
  /\ bufferHeightOf t <= Canvas.height buffer <= bufferHeightOf t * 4.
Proof.
  intros Ht Hw Hh. cbv zeta. rewrite (render_buffer options fuel c t w Ht).
  apply ensured_band; assumption.
Qed.

Lemma render_buffer_band_witness :
  let buffer :=
    frameBuffer (snd (render sampleOptions 0 (sampleContext fullCache)
                             (emptyWorld (Canvas.mk 5000 100)))) in
  768 <= Canvas.width buffer <= 768 * 4 /\ 768 <= Canvas.height buffer <= 768 * 4.
Proof.
  apply (render_buffer_band sampleOptions 0 (sampleContext fullCache) sampleTiles
           (emptyWorld (Canvas.mk 5000 100)) getTiles_sample); cbn; lia.
Defined.

(** X13: after a render pass the footprint of every cell of the grid lies
    inside the buffer: the tiles are never drawn across its edge. *)
Theorem render_footprints_fit {Image : Type} (options : Options.t) (fuel : nat)
    (c : RenderContext Image) (t : Tiles.t) (w : World Image) (x y : Z) :
  getTiles options (project c) (state c) = inr t ->
  fst (Tiles.tileTopLeft t) <= x <= fst (Tiles.tileBottomRight t) ->
  snd (Tiles.tileTopLeft t) <= y <= snd (Tiles.tileBottomRight t) ->
  let buffer := frameBuffer (snd (render options fuel c w)) in
  let tileSize := Zpos (Tiles.tileSize t) in
  let dx := (x - fst (Tiles.tileTopLeft t)) * tileSize in
  let dy := (y - snd (Tiles.tileTopLeft t)) * tileSize in
  0 <= dx /\ dx + tileSize <= Canvas.width buffer
  /\ 0 <= dy /\ dy + tileSize <= Canvas.height buffer.
Proof.
  intros Ht Hx Hy. cbv zeta. rewrite (render_buffer options fuel c t w Ht).
  assert (0 < Zpos (Tiles.tileSize t)) as Hs by reflexivity.
  assert ((x - fst (Tiles.tileTopLeft t)) * Zpos (Tiles.tileSize t)
          + Zpos (Tiles.tileSize t) <= bufferWidthOf t) as Bx
    by (unfold bufferWidthOf; nia).
  assert ((y - snd (Tiles.tileTopLeft t)) * Zpos (Tiles.tileSize t)
          + Zpos (Tiles.tileSize t) <= bufferHeightOf t) as By
    by (unfold bufferHeightOf; nia).
  destruct (ensured_band (frameBuffer w) t) as [Hw Hh]; [nia | nia |].
  repeat split; nia.
Qed.

Lemma render_footprints_fit_witness :
  let buffer :=
    frameBuffer (snd (render sampleOptions 0 (sampleContext fullCache)
                             (emptyWorld (newFrameBuffer true)))) in
  0 <= (2 - 0) * 256 /\ (2 - 0) * 256 + 256 <= Canvas.width buffer
  /\ 0 <= (1 - 0) * 256 /\ (1 - 0) * 256 + 256 <= Canvas.height buffer.
Proof.
  apply (render_footprints_fit sampleOptions 0 (sampleContext fullCache) sampleTiles
           (emptyWorld (newFrameBuffer true)) 2 1 getTiles_sample); cbn; lia.
Defined.

(** ** More on the preload pass *)

Lemma preloadTiles_exact {Image : Type} (options : Options.t)
    (getImage : GetImage Image) (t : Tiles.t) (w : World Image) :
  preloadTiles options getImage t w
  = (Ok tt,
     mkWorld
       (if (Canvas.width (frameBuffer w) <? bufferWidthOf t * 2)
           || (Canvas.height (frameBuffer w) <? bufferHeightOf t * 2)
        then Canvas.mk (bufferWidthOf t * 2) (bufferHeightOf t * 2)
        else frameBuffer w)
       (bufferCtx w) (context w)
       (requests w
        ++ cells t (fun x y =>
                      [Request.mk (Options.source options x y (Tiles.zoom t))
                         (GetImageOptions.mk (Some (preloadPriority t x y)) None
                                             (Some true))]))).
Proof.
  unfold preloadTiles.
  rewrite (bind_run _ _ _ _ _
             (forEach_record _ _ _ _
                (fun x w1 =>
                   forEach_record _ (fun _ => []) (fun _ => [])
                     (fun y =>
                        [Request.mk (Options.source options x y (Tiles.zoom t))
                           (GetImageOptions.mk (Some (preloadPriority t x y)) None
                                               (Some true))])
                     (fun y w2 =>
                        eq_trans
                          (bind_run _ _ _ _ _ (query_record getImage _ _ w2))
                          eq_refl)
                     _ w1)
                _ _)).
  assert (forall (A B C : Type) (l : list A) (l' : list B),
            flat_map (fun _ : A => flat_map (fun _ : B => @nil C) l') l = [])
    as Hnil.
  { intros A B C l l'. induction l as [| a l IH]; cbn; [reflexivity |].
    rewrite IH, app_nil_r. induction l'; auto. }
  unfold bind, getBuffer, record, cells. rewrite !Hnil, !app_nil_r.
  cbn [frameBuffer bufferCtx context requests].
  destruct (_ || _); reflexivity.
Qed.

(** X14: a preload pass whose grid is computed ends normally, draws nothing,
    asks the cache once for every cell of the grid, in the order of the
    loops, with [preload: true], the priority [3 - distance] and no
    restriction to the cache, and leaves the buffer at least twice the
    required size in each dimension: as it was, or exactly twice the
    required size. *)
Theorem preload_effects {Image : Type} (options : Options.t) (state : State.t)
    (project : Point R -> Point R) (getImage : GetImage Image) (t : Tiles.t)
    (w : World Image) :
  getTiles options project state = inr t ->
  exists w',
    preload options state project getImage w = (Ok tt, w')
    /\ bufferCtx w' = bufferCtx w
    /\ context w' = context w
    /\ requests w'
       = requests w
         ++ cells t (fun x y =>
                       [Request.mk (Options.source options x y (Tiles.zoom t))
                          (GetImageOptions.mk (Some (preloadPriority t x y)) None
                                              (Some true))])
    /\ bufferWidthOf t * 2 <= Canvas.width (frameBuffer w')
    /\ bufferHeightOf t * 2 <= Canvas.height (frameBuffer w')
    /\ (frameBuffer w' = frameBuffer w
        \/ frameBuffer w' = Canvas.mk (bufferWidthOf t * 2) (bufferHeightOf t * 2)).
Proof.
  intros Ht. unfold preload. rewrite Ht, preloadTiles_exact.
  eexists. split; [reflexivity |]. cbn [frameBuffer bufferCtx context requests].
  split; [reflexivity |]. split; [reflexivity |]. split; [reflexivity |].
  destruct (_ || _) eqn:E; cbn [Canvas.width Canvas.height].
  - split; [lia |]. split; [lia |]. right. reflexivity.
  - apply orb_false_iff in E. destruct E as [E1 E2].
    apply Z.ltb_ge in E1, E2. split; [exact E1 |]. split; [exact E2 |].
    left. reflexivity.
Qed.

Lemma preload_effects_witness :
  exists w',
    preload sampleOptions sampleState identityProjection emptyCache
            (emptyWorld (newFrameBuffer true)) = (Ok tt, w')
    /\ bufferCtx w' = []
    /\ List.length (requests w') = 9%nat
    /\ frameBuffer w' = Canvas.mk 1536 1536.
Proof.
  destruct (preload_effects sampleOptions sampleState identityProjection emptyCache
              sampleTiles (emptyWorld (newFrameBuffer true)) getTiles_sample)
    as (w' & E & Hb & _ & Hr & _ & _ & [Hf | Hf]).
  - exfalso. unfold preload in E.
    rewrite getTiles_sample, preloadTiles_exact in E. inversion E; subst w'.
    vm_compute in Hf. discriminate Hf.
  - exists w'. split; [exact E |]. split; [exact Hb |]. split; [| exact Hf].
    rewrite Hr. reflexivity.
Defined.

(** X15: a render pass that follows a preload pass over the same grid, with
    a required size that is not negative, does not enlarge the buffer, and
    leaves it between twice and four times the required size in each
    dimension. *)
Theorem render_after_preload {Image : Type} (options : Options.t) (fuel : nat)
    (c : RenderContext Image) (t : Tiles.t) (w : World Image) :
  getTiles options (project c) (state c) = inr t ->
  0 <= bufferWidthOf t -> 0 <= bufferHeightOf t ->
  let w1 := snd (preload options (state c) (project c) (getImage c) w) in
  let preloaded := frameBuffer w1 in
  let rendered := frameBuffer (snd (render options fuel c w1)) in
  Canvas.width rendered <= Canvas.width preloaded
  /\ Canvas.height rendered <= Canvas.height preloaded
  /\ bufferWidthOf t * 2 <= Canvas.width rendered <= bufferWidthOf t * 4
  /\ bufferHeightOf t * 2 <= Canvas.height rendered <= bufferHeightOf t * 4.
Proof.
  intros Ht Hw Hh. cbv zeta. rewrite (render_buffer options fuel c t _ Ht).
  unfold preload. rewrite Ht, preloadTiles_exact. cbn [snd frameBuffer].
  match goal with
  | |- context [ensured ?b t] => set (b1 := b)
  end.
  assert (bufferWidthOf t * 2 <= Canvas.width b1
          /\ bufferHeightOf t * 2 <= Canvas.height b1) as [B1 B2].
  { unfold b1. destruct (_ || _) eqn:E; cbn [Canvas.width Canvas.height]; [lia |].
    apply orb_false_iff in E. destruct E as [E1 E2].
    apply Z.ltb_ge in E1, E2. lia. }
  unfold ensured. destruct (mustResize b1 _ _) eqn:E;
    cbn [Canvas.width Canvas.height]; [lia |].
  assert (~ (Canvas.width b1 < bufferWidthOf t
             \/ Canvas.height b1 < bufferHeightOf t
             \/ Canvas.width b1 > bufferWidthOf t * 4
             \/ Canvas.height b1 > bufferHeightOf t * 4)) as N
    by (intros H; apply mustResize_iff in H; congruence).
  lia.
Qed.

Lemma render_after_preload_witness :
  let w1 :=
    snd (preload sampleOptions sampleState identityProjection fullCache
                 (emptyWorld (Canvas.mk 9000 9000))) in
  let rendered :=
    frameBuffer (snd (render sampleOptions 0 (sampleContext fullCache) w1)) in
  Canvas.width rendered <= Canvas.width (frameBuffer w1)
  /\ Canvas.height rendered <= Canvas.height (frameBuffer w1)
  /\ 768 * 2 <= Canvas.width rendered <= 768 * 4
  /\ 768 * 2 <= Canvas.height rendered <= 768 * 4.
Proof.
  apply (render_after_preload sampleOptions 0 (sampleContext fullCache) sampleTiles
           (emptyWorld (Canvas.mk 9000 9000)) getTiles_sample); cbn; lia.
Defined.

(** ** Priorities *)

Lemma Qcompare_diff (a b : Z) :
  Qcompare (inject_Z a + - inject_Z b) 0 = Z.compare a b.
Proof.
  unfold Qcompare. cbn. rewrite !Z.mul_1_r.
  symmetry. apply Z.compare_sub.
Qed.

(** One coordinate of [distanceFromCenter]. *)
Lemma axis_degenerate (x tl : Z) :
  Num.mul
    (Num.sub (Num.div (Num.sub (Num.ofZ x) (Num.ofZ tl))
                      (Num.sub (Num.ofZ tl) (Num.ofZ tl)))
             (Fin (1 # 2)))
    (Fin 2)
  = match Z.compare x tl with
    | Eq => NaN
    | Gt => PInf
    | Lt => NInf
    end.
Proof.
  unfold Num.sub, Num.ofZ, Num.neg, Num.add, Num.div.
  rewrite !Qcompare_diff, Z.compare_refl.
  destruct (Z.compare x tl); reflexivity.
Qed.

Lemma axis_regular (x tl br : Z) :
  tl <= x <= br -> tl < br ->
  exists q,
    Num.mul
      (Num.sub (Num.div (Num.sub (Num.ofZ x) (Num.ofZ tl))
                        (Num.sub (Num.ofZ br) (Num.ofZ tl)))
               (Fin (1 # 2)))
      (Fin 2)
    = Fin q
    /\ (- (1) <= q <= 1)%Q.
Proof.
  intros Hx Hlt.
  unfold Num.sub, Num.ofZ, Num.neg, Num.add, Num.div.
  rewrite Qcompare_diff.
  assert (Z.compare br tl = Gt) as -> by (apply Z.compare_gt_iff; lia).
  cbn [Num.mul]. eexists. split; [reflexivity |].
  set (p := (inject_Z x + - inject_Z tl)%Q).
  set (s := (inject_Z br + - inject_Z tl)%Q).
  assert (0 <= p)%Q as Hp by (unfold p, Qle; cbn; lia).
  assert (p <= s)%Q as Hps by (unfold p, s, Qle; cbn; lia).
  assert (0 < s)%Q as Hs by (unfold s, Qlt; cbn; lia).
  assert (0 <= p / s)%Q as H0
    by (apply Qle_shift_div_l; [exact Hs | rewrite Qmult_0_l; exact Hp]).
  assert (p / s <= 1)%Q as H1
    by (apply Qle_shift_div_r; [exact Hs | rewrite Qmult_1_l; exact Hps]).
  clearbody p s. generalize dependent (p / s)%Q. intros r H0 H1. split; lra.
Qed.

(** X16: in a grid one tile wide or one tile high, the priority that
    [render] passes to the cache is NaN for every cell: the distance from
    the centre divides zero by the extent of the grid, which is zero. *)
Theorem renderPriority_single_line (t : Tiles.t) (x y : Z) :
  fst (Tiles.tileTopLeft t) <= x <= fst (Tiles.tileBottomRight t) ->
  snd (Tiles.tileTopLeft t) <= y <= snd (Tiles.tileBottomRight t) ->
  fst (Tiles.tileBottomRight t) = fst (Tiles.tileTopLeft t)
  \/ snd (Tiles.tileBottomRight t) = snd (Tiles.tileTopLeft t) ->
  renderPriority t x y = NaN.
Proof.
  intros Hx Hy Hline.
  unfold renderPriority, distanceOf, renderSize, multiply, subtract, divide,
    pointwise, pointOfZ, toPoint. cbn [fst snd].
  destruct Hline as [E | E]; rewrite E.
  - rewrite axis_degenerate.
    assert (Z.compare x (fst (Tiles.tileTopLeft t)) = Eq) as ->
      by (apply Z.compare_eq_iff; lia).
    reflexivity.
  - rewrite (axis_degenerate y).
    assert (Z.compare y (snd (Tiles.tileTopLeft t)) = Eq) as ->
      by (apply Z.compare_eq_iff; lia).
    match goal with |- context [Num.abs ?a] => destruct (Num.abs a) end; reflexivity.
Qed.

Lemma renderPriority_single_line_witness : renderPriority columnTiles 0 1 = NaN.
Proof.
  apply renderPriority_single_line; cbn; lia.
Defined.

(** X17: in a grid at least two tiles wide and two tiles high, the priority
    that [render] passes to the cache for a cell of the grid is a number
    between 1 and 2. *)
Theorem renderPriority_range (t : Tiles.t) (x y : Z) :
  fst (Tiles.tileTopLeft t) <= x <= fst (Tiles.tileBottomRight t) ->
  snd (Tiles.tileTopLeft t) <= y <= snd (Tiles.tileBottomRight t) ->
  fst (Tiles.tileTopLeft t) < fst (Tiles.tileBottomRight t) ->
  snd (Tiles.tileTopLeft t) < snd (Tiles.tileBottomRight t) ->
  exists q, renderPriority t x y = Fin q /\ (1 <= q <= 2)%Q.
Proof.
  intros Hx Hy Hw Hh.
  unfold renderPriority, distanceOf, renderSize, multiply, subtract, divide,
    pointwise, pointOfZ, toPoint. cbn [fst snd].
  destruct (axis_regular x _ _ Hx Hw) as (a & -> & Ha).
  destruct (axis_regular y _ _ Hy Hh) as (b & -> & Hb).
  cbn [Num.abs Num.add Num.div Num.sub Num.neg]. 
  change (Qcompare 2 0) with Gt. cbn iota.
  eexists. split; [reflexivity |].
  assert (0 <= Qabs a <= 1)%Q as [A0 A1]
    by (split; [apply Qabs_nonneg | apply Qabs_Qle_condition; exact Ha]).
  assert (0 <= Qabs b <= 1)%Q as [B0 B1]
    by (split; [apply Qabs_nonneg | apply Qabs_Qle_condition; exact Hb]).
  generalize dependent (Qabs a). generalize dependent (Qabs b). intros.
  assert (0 <= (q0 + q) / 2 <= 1)%Q as [D0 D1].
  { split.
    - apply Qle_shift_div_l; [reflexivity | lra].
    - apply Qle_shift_div_r; [reflexivity | lra]. }
  generalize dependent ((q0 + q) / 2)%Q. intros. split; lra.
Qed.

Lemma renderPriority_range_witness :
  exists q, renderPriority sampleTiles 1 1 = Fin q /\ (1 <= q <= 2)%Q.
Proof.
  apply renderPriority_range; cbn; lia.
Defined.





(** ** Single tiles of a render pass *)

(** A render pass in which every tile can be drawn, seen from one cell of
    the grid: the calls on the buffer are those made before the cell, those
    of the cell, and those made after it. *)
Lemma render_focus {Image : Type} (options : Options.t) (fuel : nat)
    (c : RenderContext Image) (t : Tiles.t) (x y : Z) (w : World Image) :
  getTiles options (project c) (state c) = inr t ->
  fst (Tiles.tileTopLeft t) <= x <= fst (Tiles.tileBottomRight t) ->
  snd (Tiles.tileTopLeft t) <= y <= snd (Tiles.tileBottomRight t) ->
  (forall x' y', completes (drawTile options fuel c t x' y')) ->
  exists wc wd w' before after,
    drawTile options fuel c t x y wc = (Ok tt, wd)
    /\ render options fuel c w = (Ok tt, w')
    /\ bufferCtx wc = bufferCtx w ++ before
    /\ bufferCtx w' = bufferCtx wd ++ after.
Proof.
  intros Ht Hx Hy Hc.
  unfold render. rewrite Ht, renderTiles_run.
  set (w0 := mkWorld _ (bufferCtx w) _ _).
  unfold paintTiles.
  destruct (run_unit (clearBuffer c) w0 (draws_clearBuffer c) (completes_clearBuffer c))
    as (w1 & E1 & S1).
  rewrite (bind_run _ _ _ _ _ E1).
  destruct (forEach_focus
              (Zrange (fst (Tiles.tileTopLeft t)) (fst (Tiles.tileBottomRight t)))
              (fun x' =>
                 forEach (Zrange (snd (Tiles.tileTopLeft t))
                                 (snd (Tiles.tileBottomRight t)))
                         (fun y' => drawTile options fuel c t x' y'))
              x w1)
    as (wa & wb & w2 & Sa & Ex & Sb & E2).
  { intros x'. apply draws_forEach. intros y'. apply draws_drawTile. }
  { intros x' _. apply completes_forEach. intros y' _. apply Hc. }
  { apply In_Zrange. exact Hx. }
  destruct (forEach_focus
              (Zrange (snd (Tiles.tileTopLeft t)) (snd (Tiles.tileBottomRight t)))
              (fun y' => drawTile options fuel c t x y')
              y wa)
    as (wc & wd & wb' & Sc & Ey & Sd & Ex').
  { intros y'. apply draws_drawTile. }
  { intros y' _. apply Hc. }
  { apply In_Zrange. exact Hy. }
  rewrite Ex in Ex'. inversion Ex'; subst wb'; clear Ex'.
  change (forEach _ _ w1) with (drawTiles options fuel c t w1) in E2.
  rewrite (bind_run _ _ _ _ _ E2).
  destruct (run_unit (bind (blitToSurface t) (fun _ => drawDebugOverlay c t)) w2)
    as (w3 & E3 & S3).
  { apply draws_bind; [apply draws_blitToSurface | intros _; apply draws_drawDebugOverlay]. }
  { apply completes_bind;
      [apply completes_blitToSurface | intros _; apply completes_drawDebugOverlay]. }
  rewrite E3.
  destruct S1 as (_ & (c1 & H1) & _). destruct Sa as (_ & (ca & Ha) & _).
  destruct Sc as (_ & (cc & Hcc) & _). destruct Sd as (_ & (cd & Hd) & _).
  destruct Sb as (_ & (cb & Hb) & _). destruct S3 as (_ & (c3 & H3) & _).
  exists wc, wd, w3, (c1 ++ ca ++ cc), (cd ++ cb ++ c3).
  split; [exact Ey |]. split; [reflexivity |]. split.
  - rewrite Hcc, Ha, H1. subst w0. cbn [bufferCtx]. rewrite <- !app_assoc. reflexivity.
  - rewrite H3, Hb, Hd. rewrite <- !app_assoc. reflexivity.
Qed.

(** A tile that misses the cache while an ancestor is cached: the part of
    the ancestor is drawn on the footprint, and tinted in the debug mode. *)
Lemma drawTile_fallback {Image : Type} (options : Options.t) (fuel : nat)
    (c : RenderContext Image) (t : Tiles.t) (x y : Z) (w : World Image)
    (f : Fallback.t Image) :
  getImage c (Options.source options x y (Tiles.zoom t))
             (GetImageOptions.mk (Some (renderPriority t x y))
                                 (Some (String.eqb (reason c) "ease")) None)
  = None ->
  fst (getFallbackTile options fuel (getImage c) (inject_Z x) (inject_Z y)
                       (Tiles.zoom t) 1 w) = Ok (Some f) ->
  let tileSize := inject_Z (Zpos (Tiles.tileSize t)) in
  let dx := inject_Z ((x - fst (Tiles.tileTopLeft t)) * Zpos (Tiles.tileSize t)) in
  let dy := inject_Z ((y - snd (Tiles.tileTopLeft t)) * Zpos (Tiles.tileSize t)) in
  exists w',
    drawTile options fuel c t x y w = (Ok tt, w')
    /\ bufferCtx w'
       = bufferCtx w
         ++ DrawImageSub (Fallback.image f)
              (Fallback.x f * tileSize)%Q (Fallback.y f * tileSize)%Q
              (Fallback.scale f * tileSize)%Q (Fallback.scale f * tileSize)%Q
              dx dy tileSize tileSize
            :: (if State.debug (state c)
                then [SetFillStyle "#0000ff33"; FillRect dx dy tileSize tileSize]
                else []).
Proof.
  intros Hmiss Hsome. cbv zeta. unfold drawTile.
  unfold bind at 1, query at 1. rewrite Hmiss. cbv beta iota.
  unfold bind at 1.
  match goal with
  | |- context [getFallbackTile _ _ _ _ _ _ _ ?wq] =>
      rewrite (getFallbackTile_answer options (getImage c) fuel _ _ _ _ w wq) in Hsome;
      destruct (getFallbackTile_effects options (getImage c) fuel (inject_Z x)
                  (inject_Z y) (Tiles.zoom t) 1 wq) as (_ & Hb & _);
      destruct (getFallbackTile options fuel (getImage c) (inject_Z x) (inject_Z y)
                  (Tiles.zoom t) 1 wq) as [o wf]
  end.
  cbn [fst snd bufferCtx] in Hsome, Hb. subst o.
  destruct (State.debug (state c)); cbn; rewrite Hb; eexists; split; try reflexivity;
    cbn; rewrite <- ?app_assoc; reflexivity.
Qed.

(** X19: when a cell of the grid misses the cache and the fallback resolver
    finds an ancestor, a render pass at a zoom level that is not negative,
    with a recursion depth above the level, ends normally and, among its
    calls on the buffer, draws the resolver's part of the ancestor (corner
    [offset * tileSize], side [scale * tileSize]) onto the footprint of the
    cell, followed by the blue tint when [state.debug] is set. *)
Theorem render_draws_fallback {Image : Type} (options : Options.t) (fuel : nat)
    (c : RenderContext Image) (t : Tiles.t) (x y : Z) (w : World Image)
    (f : Fallback.t Image) :
  getTiles options (project c) (state c) = inr t ->
  0 <= Tiles.zoom t < Z.of_nat fuel ->
  fst (Tiles.tileTopLeft t) <= x <= fst (Tiles.tileBottomRight t) ->
  snd (Tiles.tileTopLeft t) <= y <= snd (Tiles.tileBottomRight t) ->
  getImage c (Options.source options x y (Tiles.zoom t))
             (GetImageOptions.mk (Some (renderPriority t x y))
                                 (Some (String.eqb (reason c) "ease")) None)
  = None ->
  fst (getFallbackTile options fuel (getImage c) (inject_Z x) (inject_Z y)
                       (Tiles.zoom t) 1 w) = Ok (Some f) ->
  let tileSize := inject_Z (Zpos (Tiles.tileSize t)) in
  let dx := inject_Z ((x - fst (Tiles.tileTopLeft t)) * Zpos (Tiles.tileSize t)) in
  let dy := inject_Z ((y - snd (Tiles.tileTopLeft t)) * Zpos (Tiles.tileSize t)) in
  exists w' before after,
    render options fuel c w = (Ok tt, w')
    /\ bufferCtx w'
       = bufferCtx w ++ before
         ++ (DrawImageSub (Fallback.image f)
               (Fallback.x f * tileSize)%Q (Fallback.y f * tileSize)%Q
               (Fallback.scale f * tileSize)%Q (Fallback.scale f * tileSize)%Q
               dx dy tileSize tileSize
             :: (if State.debug (state c)
                 then [SetFillStyle "#0000ff33"; FillRect dx dy tileSize tileSize]
                 else []))
         ++ after.
Proof.
  intros Ht Hz Hx Hy Hmiss Hsome. cbv zeta.
  destruct (render_focus options fuel c t x y w Ht Hx Hy
              (fun x' y' => completes_drawTile_depth options fuel c t x' y' Hz))
    as (wc & wd & w' & before & after & Ed & Er & Hbefore & Hafter).
  rewrite (getFallbackTile_answer options (getImage c) fuel _ _ _ _ w wc) in Hsome.
  destruct (drawTile_fallback options fuel c t x y wc f Hmiss Hsome) as (wd' & Ed' & Hcell).
  rewrite Ed in Ed'. inversion Ed'; subst wd'; clear Ed'.
  exists w', before, after. split; [exact Er |].
  rewrite Hafter, Hcell, Hbefore. rewrite <- !app_assoc. reflexivity.
Qed.

Lemma render_draws_fallback_witness :
  exists w' before after,
    render sampleOptions 2 (sampleContext rootCache)
           (emptyWorld (newFrameBuffer false)) = (Ok tt, w')
    /\ bufferCtx w'
       = [] ++ before
         ++ [DrawImageSub "0/0/0"%string ((1 # 2) * 256)%Q ((1 # 2) * 256)%Q
               ((1 * (1 # 2)) * 256)%Q ((1 * (1 # 2)) * 256)%Q
               256%Q 256%Q 256%Q 256%Q]
         ++ after.
Proof.
  apply (render_draws_fallback sampleOptions 2 (sampleContext rootCache) sampleTiles
           1 1 (emptyWorld (newFrameBuffer false))
           (Fallback.mk "0/0/0"%string (1 * (1 # 2))%Q (1 # 2) (1 # 2))
           getTiles_sample).
  - cbn. lia.
  - cbn. lia.
  - cbn. lia.
  - reflexivity.
  - reflexivity.
Defined.

(** X20: when a cell of the grid is in the cache, a render pass at a zoom
    level that is not negative, with a recursion depth above the level,
    ends normally whatever else the cache holds and, among its calls on the
    buffer, draws the tile on the footprint of the cell at the size of a
    tile. *)
Theorem render_draws_cached_tile {Image : Type} (options : Options.t) (fuel : nat)
    (c : RenderContext Image) (t : Tiles.t) (x y : Z) (w : World Image)
    (tile : Image) :
  getTiles options (project c) (state c) = inr t ->
  0 <= Tiles.zoom t < Z.of_nat fuel ->
  fst (Tiles.tileTopLeft t) <= x <= fst (Tiles.tileBottomRight t) ->
  snd (Tiles.tileTopLeft t) <= y <= snd (Tiles.tileBottomRight t) ->
  getImage c (Options.source options x y (Tiles.zoom t))
             (GetImageOptions.mk (Some (renderPriority t x y))
                                 (Some (String.eqb (reason c) "ease")) None)
  = Some tile ->
  let tileSize := inject_Z (Zpos (Tiles.tileSize t)) in
  let dx := inject_Z ((x - fst (Tiles.tileTopLeft t)) * Zpos (Tiles.tileSize t)) in
  let dy := inject_Z ((y - snd (Tiles.tileTopLeft t)) * Zpos (Tiles.tileSize t)) in
  exists w' before after,
    render options fuel c w = (Ok tt, w')
    /\ bufferCtx w'
       = bufferCtx w ++ before
         ++ [DrawImage tile dx dy tileSize tileSize; SetStrokeStyle "orange"]
         ++ after.
Proof.
  intros Ht Hz Hx Hy Hhit. cbv zeta.
  destruct (render_focus options fuel c t x y w Ht Hx Hy
              (fun x' y' => completes_drawTile_depth options fuel c t x' y' Hz))
    as (wc & wd & w' & before & after & Ed & Er & Hbefore & Hafter).
  rewrite (drawTile_hit options fuel c t x y wc tile Hhit) in Ed.
  inversion Ed; subst wd; clear Ed.
  exists w', before, after. split; [exact Er |].
  rewrite Hafter. unfold record. cbn [bufferCtx]. rewrite Hbefore.
  rewrite <- !app_assoc. reflexivity.
Qed.

Lemma render_draws_cached_tile_witness :
  exists w' before after,
    render sampleOptions 2 (sampleContext fullCache)
           (emptyWorld (newFrameBuffer false)) = (Ok tt, w')
    /\ bufferCtx w'
       = [] ++ before
         ++ [DrawImage (sampleSource 2 1 1) 512%Q 256%Q 256%Q 256%Q;
             SetStrokeStyle "orange"]
         ++ after.
Proof.
  apply (render_draws_cached_tile sampleOptions 2 (sampleContext fullCache) sampleTiles
           2 1 (emptyWorld (newFrameBuffer false)) (sampleSource 2 1 1)
           getTiles_sample).
  - cbn. lia.
  - cbn. lia.
  - cbn. lia.
  - reflexivity.
Defined.

(** ** The debug overlay *)

Lemma rem_2_even (a : Z) : (Z.rem a 2 =? 0) = Z.even a.
Proof.
  rewrite Zrem_even. destruct (Z.even a) eqn:E; [reflexivity |].
  destruct a; cbn in *; try discriminate; reflexivity.
Qed.

(** X21: [renderDebugGrid] draws a checkerboard: it only calls the
    destination, and the cell [(x, y)] is stroked and filled in the red pair
    of colours when [x + y] is even and in the blue pair when it is odd, for
    negative coordinates as well. *)
Theorem renderDebugGrid_checkerboard {Image : Type} (x y zoom : Z) (width height : R)
    (w : World Image) :
  exists stroke fill cs1 cs2,
    renderDebugGrid x y zoom width height w
    = (Ok tt,
       record w [] (cs1 ++ SetStrokeStyle stroke :: SetFillStyle fill :: cs2) [])
    /\ (forall s, ~ In (SetStrokeStyle s) (cs1 ++ cs2))
    /\ (forall s, ~ In (SetFillStyle s) (cs1 ++ cs2))
    /\ (Z.even (x + y) = true -> stroke = "#f4433633"%string /\ fill = "#f44336"%string)
    /\ (Z.even (x + y) = false -> stroke = "#2196f333"%string /\ fill = "#2196f3"%string).
Proof.
  unfold renderDebugGrid.
  repeat (rewrite (bind_run _ _ _ _ _ (onContext_record _ _)), ?record_record).
  rewrite onContext_record, record_record. cbn [app].
  rewrite rem_2_even.
  eexists. eexists.
  exists [SetLineWidth 4%R; SetTextAlign "center"; SetTextBaseline "top";
          SetFont "bold 16px monospace"].
  eexists. split; [cbn [app]; reflexivity |].
  split; [| split; [| split]].
  - intros s H. cbn in H. intuition discriminate.
  - intros s H. cbn in H. intuition discriminate.
  - intros E. rewrite E. split; reflexivity.
  - intros E. rewrite E. split; reflexivity.
Qed.

Lemma renderDebugGrid_checkerboard_witness :
  exists stroke fill cs1 cs2,
    renderDebugGrid (-1) 0 1 256 256 (emptyWorld (newFrameBuffer false))
    = (Ok tt,
       record (emptyWorld (newFrameBuffer false)) []
              (cs1 ++ SetStrokeStyle stroke :: SetFillStyle fill :: cs2) [])
    /\ stroke = "#2196f333"%string /\ fill = "#2196f3"%string.
Proof.
  destruct (renderDebugGrid_checkerboard (-1) 0 1 256 256
              (emptyWorld (newFrameBuffer false)))
    as (stroke & fill & cs1 & cs2 & E & _ & _ & _ & Hodd).
  exists stroke, fill, cs1, cs2. split; [exact E |]. apply Hodd. reflexivity.
Defined.

(** ** Grids that hold no tile *)

(** Seen from far outside the bounds, the corner tiles of the grid come out
    in the wrong order: the bottom right tile is seven tiles left of and
    above the top left one. *)
Lemma getTiles_outside :
  getTiles sampleOptions identityProjection outsideState = inr outsideTiles.
Proof.
  eval_integer_zoom 1. cbn [outsideState State.zoom State.center State.width
                            State.height fst snd].
  repeat first [eval_floor 0 | eval_floor (-7)].
  rewrite (Zceil_eq 1) by lra. reflexivity.
Qed.

Lemma Zrange_length (lo hi : Z) :
  lo - 1 <= hi -> Z.of_nat (List.length (Zrange lo hi)) = hi - lo + 1.
Proof.
  intros H. unfold Zrange. rewrite List.length_map, List.length_seq. lia.
Qed.

(** A render pass over the inverted grid, on the buffer of a new layer: the
    pass ends normally and leaves the buffer with negative dimensions. *)
Lemma render_outside :
  let first :=
    render sampleOptions 0 (outsideContext fullCache)
           (emptyWorld (newFrameBuffer false)) in
  fst first = Ok tt /\ frameBuffer (snd first) = Canvas.mk (-3072) (-3072).
Proof.
  cbv zeta. split.
  - destruct (render_twice sampleOptions 0 (outsideContext fullCache)
                (newFrameBuffer false)) as (_ & _ & _ & _ & _ & Hrun).
    + intros src opts. discriminate.
    + destruct (Hrun outsideTiles getTiles_outside) as (Hok & _). exact Hok.
  - rewrite (render_buffer sampleOptions 0 (outsideContext fullCache) outsideTiles
               (emptyWorld (newFrameBuffer false)) getTiles_outside).
    reflexivity.
Qed.

(** C1: a render pass over a grid without cells resizes a buffer that the
    required size leaves alone.  For the sample layer seen from far outside
    its bounds the grid has no column and no row, so the required size
    (cell count times [tileSize]) is 0 by 0, and the 0 by 0 buffer of a new
    layer is neither smaller than it nor larger than four times it; still
    the test of [render], taken on [(tileBottomRight - tileTopLeft + 1) *
    tileSize = -1536], succeeds, and the pass sets the buffer's dimensions
    to -3072 by -3072. *)
Theorem render_inverted_grid_resizes :
  let c := outsideContext fullCache in
  let w := emptyWorld (newFrameBuffer false) in
  let t := outsideTiles in
  let columns :=
    Z.of_nat (List.length (Zrange (fst (Tiles.tileTopLeft t))
                                  (fst (Tiles.tileBottomRight t)))) in
  let rows :=
    Z.of_nat (List.length (Zrange (snd (Tiles.tileTopLeft t))
                                  (snd (Tiles.tileBottomRight t)))) in
  let requiredWidth := columns * Zpos (Tiles.tileSize t) in
  let requiredHeight := rows * Zpos (Tiles.tileSize t) in
  let buffer := frameBuffer w in
  let buffer' := frameBuffer (snd (render sampleOptions 0 c w)) in
  getTiles sampleOptions (project c) (state c) = inr t
  /\ columns = 0 /\ rows = 0
  /\ ~ (Canvas.width buffer < requiredWidth
        \/ Canvas.height buffer < requiredHeight
        \/ Canvas.width buffer > requiredWidth * 4
        \/ Canvas.height buffer > requiredHeight * 4)
  /\ bufferWidthOf t = -1536 /\ bufferHeightOf t = -1536
  /\ mustResize buffer (bufferWidthOf t) (bufferHeightOf t) = true
  /\ fst (render sampleOptions 0 c w) = Ok tt
  /\ buffer = Canvas.mk 0 0
  /\ buffer' = Canvas.mk (-3072) (-3072)
  /\ buffer' <> buffer.
Proof.
  cbv zeta. destruct render_outside as (Hok & Hb).
  split; [exact getTiles_outside |].
  split; [reflexivity |]. split; [reflexivity |].
  split; [cbn; lia |].
  split; [reflexivity |]. split; [reflexivity |]. split; [reflexivity |].
  split; [exact Hok |]. split; [reflexivity |].
  split; [exact Hb |]. rewrite Hb. discriminate.
Qed.


(** X22: for a grid whose corner tiles are in order (the bottom right one
    not more than one tile left of or above the top left one), the required
    size of the buffer is the number of columns and of rows of the grid
    times [tileSize], and a render pass resizes the buffer exactly when its
    width or height is smaller than that or larger than four times that; a
    resize sets both dimensions to twice the required ones, and otherwise
    both are left as they were. *)
Theorem render_buffer_size_by_cells {Image : Type} (options : Options.t)
    (fuel : nat) (c : RenderContext Image) (t : Tiles.t) (w : World Image) :
  getTiles options (project c) (state c) = inr t ->
  fst (Tiles.tileTopLeft t) - 1 <= fst (Tiles.tileBottomRight t) ->
  snd (Tiles.tileTopLeft t) - 1 <= snd (Tiles.tileBottomRight t) ->
  let columns :=
    Z.of_nat (List.length (Zrange (fst (Tiles.tileTopLeft t))
                                  (fst (Tiles.tileBottomRight t)))) in
  let rows :=
    Z.of_nat (List.length (Zrange (snd (Tiles.tileTopLeft t))
                                  (snd (Tiles.tileBottomRight t)))) in
  let requiredWidth := columns * Zpos (Tiles.tileSize t) in
  let requiredHeight := rows * Zpos (Tiles.tileSize t) in
  let buffer := frameBuffer w in
  let buffer' := frameBuffer (snd (render options fuel c w)) in
  let outOfBand :=
    Canvas.width buffer < requiredWidth
    \/ Canvas.height buffer < requiredHeight
    \/ Canvas.width buffer > requiredWidth * 4
    \/ Canvas.height buffer > requiredHeight * 4 in
  (outOfBand -> buffer' = Canvas.mk (requiredWidth * 2) (requiredHeight * 2))
  /\ (~ outOfBand -> buffer' = buffer).
Proof.
  intros Ht Hx Hy. cbv zeta. rewrite !Zrange_length by assumption.
  exact (render_buffer_size options fuel c t w Ht).
Qed.

Lemma render_buffer_size_by_cells_witness :
  frameBuffer (snd (render sampleOptions 0 (sampleContext fullCache)
                           (emptyWorld (newFrameBuffer false))))
  = Canvas.mk (3 * 256 * 2) (3 * 256 * 2)
  /\ frameBuffer (snd (render sampleOptions 0 (sampleContext fullCache)
                              (emptyWorld (Canvas.mk 3072 800))))
     = Canvas.mk 3072 800.
Proof.
  split.
  - apply (proj1 (render_buffer_size_by_cells sampleOptions 0
                    (sampleContext fullCache) sampleTiles
                    (emptyWorld (newFrameBuffer false)) getTiles_sample
                    ltac:(cbn; lia) ltac:(cbn; lia))).
    left. reflexivity.
  - apply (proj2 (render_buffer_size_by_cells sampleOptions 0
                    (sampleContext fullCache) sampleTiles
                    (emptyWorld (Canvas.mk 3072 800)) getTiles_sample
                    ltac:(cbn; lia) ltac:(cbn; lia))).
    intros H. vm_compute in H. destruct H as [H | [H | [H | H]]]; discriminate H.
Defined.

(** X23: over a grid whose required buffer size is not negative, and with a
    cache that holds every tile, a second render pass with the same view
    state and projection finds the buffer within the band, so it does not
    resize it; both passes end normally and the second makes the same calls
    on the buffer and on the destination as the first. *)
Theorem render_twice_settled {Image : Type} (options : Options.t) (fuel : nat)
    (c : RenderContext Image) (t : Tiles.t) (buffer : Canvas.t) :
  (forall src opts, getImage c src opts <> None) ->
  getTiles options (project c) (state c) = inr t ->
  0 <= bufferWidthOf t -> 0 <= bufferHeightOf t ->
  let first := render options fuel c (mkWorld buffer [] [] []) in
  let second := render options fuel c (mkWorld (frameBuffer (snd first)) [] [] []) in
  fst first = Ok tt
  /\ fst second = Ok tt
  /\ mustResize (frameBuffer (snd first)) (bufferWidthOf t) (bufferHeightOf t) = false
  /\ frameBuffer (snd second) = frameBuffer (snd first)
  /\ bufferCtx (snd second) = bufferCtx (snd first)
  /\ context (snd second) = context (snd first).
Proof.
  intros Hfull Ht Hw Hh. cbv zeta.
  destruct (render_twice options fuel c buffer Hfull)
    as (Ho & Hf & Hb & Hc & _ & Hrun).
  destruct (Hrun t Ht) as (Hok & _).
  split; [exact Hok |]. split; [rewrite Ho; exact Hok |].
  split; [| split; [exact Hf | split; [exact Hb | exact Hc]]].
  rewrite (render_buffer options fuel c t (mkWorld buffer [] [] []) Ht).
  cbn [frameBuffer].
  destruct (ensured_band buffer t Hw Hh) as (Bw & Bh).
  destruct (mustResize (ensured buffer t) (bufferWidthOf t) (bufferHeightOf t))
    eqn:E; [| reflexivity].
  apply mustResize_iff in E. lia.
Qed.

Lemma render_twice_settled_witness :
  let first :=
    render sampleOptions 0 (sampleContext fullCache)
           (emptyWorld (newFrameBuffer false)) in
  let second :=
    render sampleOptions 0 (sampleContext fullCache)
           (emptyWorld (frameBuffer (snd first))) in
  fst first = Ok tt
  /\ fst second = Ok tt
  /\ mustResize (frameBuffer (snd first)) (bufferWidthOf sampleTiles)
                (bufferHeightOf sampleTiles) = false
  /\ frameBuffer (snd second) = frameBuffer (snd first)
  /\ bufferCtx (snd second) = bufferCtx (snd first)
  /\ context (snd second) = context (snd first).
Proof.
  apply (render_twice_settled sampleOptions 0 (sampleContext fullCache) sampleTiles
           (newFrameBuffer false)).
  - intros src opts. discriminate.
  - exact getTiles_sample.
  - cbn. lia.
  - cbn. lia.
Defined.
